(** * favicons: source selection, plane rendering and fan-out (src/helpers.ts)

    A shallow embedding of the helpers of the favicon generator: the source
    loader [sourceImages], the source selector [bestSource], the plane
    renderer ([resize], [createBlankImage], [createPlaneFavicon]), the icon
    assembler [createFavicon] and the fan-out coordinator [mapAsync].

    Numbers.  Every number the helpers compute with is an image dimension, an
    offset or a sign, so a JavaScript number is a [Z] here; [undefined] where
    the source allows it ([offset], [background]) is [None].

    Effects.  A call that can throw, and an awaited promise, end in a
    [Completion]: a value or a thrown [Error].  The image engine (sharp), the
    file system, [path.extname], [process.platform] and the order in which
    concurrent promises settle are the [Host].  What the engine produces is kept
    symbolic: a buffer that comes out of a pipeline is the pipeline that made
    it ([Encoded]), so that theorems can look at what was asked of the engine. *)

From Stdlib Require Import ZArith List String Ascii Bool Lia.
From Stdlib Require Import DecimalString.
Import ListNotations.
Open Scope string_scope.
Open Scope list_scope.
Open Scope Z_scope.

Set Implicit Arguments.
Set Warnings "-register-all".

(** ** Completions *)

Inductive Error : Type :=
| JsError (message : string)      (* new Error(message) *)
| TypeError (message : string).   (* thrown by the runtime itself *)

Inductive Completion (A : Type) : Type :=
| Normal (a : A)
| Throw (e : Error).

Arguments Normal {A} a.
Arguments Throw {A} e.

Definition bind {A B} (c : Completion A) (k : A -> Completion B) : Completion B :=
  match c with
  | Normal a => k a
  | Throw e => Throw e
  end.

Notation "x <- c ;; k" := (bind c (fun x => k))
  (at level 61, c at next level, right associativity).

(** ** Data model *)

Module Metadata.
(** The fields of sharp.Metadata that the helpers read. *)
Record t : Type := mk { format : string; width : Z; height : Z }.
End Metadata.

(** The value [svgDensity(metadata, width, height)] of ./svgtool, which is
    only handed on to the engine. *)
Inductive Density : Type :=
| svgDensity (metadata : Metadata.t) (width height : Z).

Inductive Buffer : Type :=
| Bytes (bs : list Byte.byte)                        (* bytes of the caller or of a file *)
| Encoded (input : SharpInput) (ops : list SharpOp)  (* what a pipeline resolves to *)
with SharpInput : Type :=
| FromBuffer (data : Buffer) (density : option Density)      (* sharp(data, options) *)
| Create (width height channels : Z) (background : option string)  (* sharp({ create }) *)
with SharpOp : Type :=
| EnsureAlpha
| Resize (width height : Z) (fit background : string) (kernel : option string)
| Composite (images : list Overlay)
| Rotate (degrees : Z)
| ToColorspace (colorspace : string)
| Raw (depth : string)
| Png
with Overlay : Type :=
| overlay (input : Buffer) (left top : Z).

(** A sharp instance: an input and the operations chained on it so far. *)
Record Sharp : Type := mkSharp { input : SharpInput; ops : list SharpOp }.

Definition chain (image : Sharp) (op : SharpOp) : Sharp :=
  mkSharp (input image) (ops image ++ [op]).

Record SourceImage : Type := mkSourceImage { data : Buffer; metadata : Metadata.t }.

Module OutputInfo.
Record t : Type := mk { width : Z; height : Z; channels : Z; size : Z }.
End OutputInfo.

Record RawImage : Type := mkRawImage { raw_data : Buffer; info : OutputInfo.t }.

Module IconPlaneOptions.
Record t : Type := mk {
  width : Z;
  height : Z;
  offset : option Z;
  pixelArt : bool;
  background : option string;
  transparent : bool;
  rotate : bool
}.
End IconPlaneOptions.

(** [contents] of a FaviconImage: Buffer | RawImage (the string alternative is
    never built by these helpers). *)
Inductive Contents : Type :=
| CBuffer (b : Buffer)
| CRaw (r : RawImage).

Record FaviconImage : Type := mkFaviconImage { name : string; contents : Contents }.

(** ** arrayComparator, minBy, minByKey *)

(** The keys compared are flat arrays of numbers, on which [[a].flat(Infinity)]
    is the array itself.  The loop over [i] walks both arrays in step. *)
Fixpoint arrayComparator (aArr bArr : list Z) : Z :=
  match aArr, bArr with
  | [], [] => 0
  | [], _ :: _ => -1
  | _ :: _, [] => 1
  | x :: aArr', y :: bArr' =>
      if negb (x =? y) then (if x <? y then -1 else 1)
      else arrayComparator aArr' bArr'
  end.

(** [array.reduce(f)] with no initial value. *)
Definition reduce {T} (f : T -> T -> T) (array : list T) : Completion T :=
  match array with
  | [] => Throw (TypeError "Reduce of empty array with no initial value")
  | x :: xs => Normal (fold_left f xs x)
  end.

Definition minBy {T} (array : list T) (comparator : T -> T -> Z) : Completion T :=
  reduce (fun acc cur => if comparator acc cur <? 0 then acc else cur) array.

Definition minByKey {T} (array : list T) (keyFn : T -> list Z) : Completion T :=
  minBy array (fun a b => arrayComparator (keyFn a) (keyFn b)).

(** ** Images.bestSource *)

Definition iconSideSize (icon : SourceImage) : Z :=
  Z.max (Metadata.width (metadata icon)) (Metadata.height (metadata icon)).

Definition sourceKey (sideSize : Z) (icon : SourceImage) : list Z :=
  [ if (Metadata.format (metadata icon) =? "svg")%string then 0 else 1;
    if iconSideSize icon >=? sideSize then 0 else 1;
    Z.abs (iconSideSize icon - sideSize) ].

Definition bestSource (sourceset : list SourceImage) (width height : Z)
  : Completion SourceImage :=
  let sideSize := Z.max width height in
  minByKey sourceset (sourceKey sideSize).

(** ** flattenIconOptions *)

(** An argument of type [unknown], as far as [asString] tells values apart. *)
Inductive Unknown : Type :=
| Undefined
| Boolean (b : bool)
| Str (s : string).

Definition asString (arg : Unknown) : option string :=
  match arg with
  | Str s => Some s
  | _ => None
  end.

Module IconSize.
Record t : Type := mk { width : Z; height : Z }.
End IconSize.

Module IconOptions.
(** Modelled from the spec: the declaration of IconOptions (./config/defaults)
    is not among the sources; these are the fields [flattenIconOptions]
    reads, typed as the plane specification list of the spec's external
    interfaces: sizes, offset?, pixelArt?, background?, transparent, rotate. *)
Record t : Type := mk {
  sizes : list IconSize.t;
  offset : option Z;
  pixelArt : option bool;
  background : Unknown;
  transparent : bool;
  rotate : bool
}.
End IconOptions.

(** [x ?? d] *)
Definition nullish {A} (x : option A) (d : A) : A :=
  match x with
  | Some a => a
  | None => d
  end.

Definition flattenIconOptions (iconOptions : IconOptions.t) : list IconPlaneOptions.t :=
  map (fun size =>
         IconPlaneOptions.mk
           (IconSize.width size)
           (IconSize.height size)
           (Some (nullish (IconOptions.offset iconOptions) 0))
           (nullish (IconOptions.pixelArt iconOptions) false)
           (asString (IconOptions.background iconOptions))
           (IconOptions.transparent iconOptions)
           (IconOptions.rotate iconOptions))
      (IconOptions.sizes iconOptions).

(** A number in a template literal. *)
Definition Number_toString (n : Z) : string := NilZero.string_of_int (Z.to_int n).

Definition rawdataName (props : IconPlaneOptions.t) : string :=
  (Number_toString (IconPlaneOptions.width props) ++ "x"
   ++ Number_toString (IconPlaneOptions.height props) ++ ".rawdata")%string.

(** What a caller can hand to [sourceImages]: a buffer, a path, an array of
    anything, or any other value. *)
Inductive Src : Type :=
| SrcBuffer (src : Buffer)
| SrcString (src : string)
| SrcArray (src : list Src)
| SrcOther.

Definition Array_isArray (src : Src) : bool :=
  match src with
  | SrcArray _ => true
  | _ => false
  end.

(** ** The host: engine, file system, path, platform and timing *)

Class Host : Type := {
  platform : string;                                (* process.platform *)
  settleOrder : list nat;                           (* indexes of concurrent promises, in the order they settle *)
  extname : string -> string;                       (* path.extname *)
  readFile : string -> Completion Buffer;           (* fs.promises.readFile *)
  sharpMetadata : Buffer -> Completion Metadata.t;  (* sharp(src).metadata() *)
  sharpRun : Sharp -> Completion OutputInfo.t;      (* the engine runs a pipeline: output info, or its error *)
  toIco : list Contents -> Buffer                   (* ./ico *)
}.

Section Helpers.
Context {host : Host}.

(** [sharp(data, options)] *)
Definition sharp (data : Buffer) (density : option Density) : Sharp :=
  mkSharp (FromBuffer data density) [].

(** [image.toBuffer()] *)
Definition toBuffer (image : Sharp) : Completion Buffer :=
  _ <- sharpRun image ;;
  Normal (Encoded (input image) (ops image)).

(** [image.toBuffer({ resolveWithObject: true })] *)
Definition toBufferWithObject (image : Sharp) : Completion RawImage :=
  info <- sharpRun image ;;
  Normal (mkRawImage (Encoded (input image) (ops image)) info).

(** ** mapAsync *)

Section MapAsync.
Variables T U : Type.
Variable computation : T -> nat -> Completion U.

(** The sequential branch: [result] and [index] are the loop's variables. *)
Fixpoint mapAsync_loop (inputs : list T) (result : list U) (index : nat)
  : Completion (list U) :=
  match inputs with
  | [] => Normal result
  | input :: rest =>
      u <- computation input index ;;
      mapAsync_loop rest (result ++ [u]) (S index)
  end.

(** [inputs.map(computation)]: the callback gets the element and its index. *)
Fixpoint Array_map_from (index : nat) (inputs : list T) : list (Completion U) :=
  match inputs with
  | [] => []
  | input :: rest => computation input index :: Array_map_from (S index) rest
  end.

Definition Array_map (inputs : list T) : list (Completion U) :=
  Array_map_from 0 inputs.
End MapAsync.

(** The first rejection met when the promises are visited in [order]. *)
Fixpoint firstRejection {U} (order : list nat) (promises : list (Completion U))
  : option Error :=
  match order with
  | [] => None
  | i :: rest =>
      match nth_error promises i with
      | Some (Throw e) => Some e
      | _ => firstRejection rest promises
      end
  end.

Fixpoint fulfilledValues {U} (promises : list (Completion U)) : list U :=
  match promises with
  | [] => []
  | Normal u :: rest => u :: fulfilledValues rest
  | Throw _ :: rest => fulfilledValues rest
  end.

(** [Promise.all]: rejects with the reason of the promise that rejects first
    in time, which the host's [settleOrder] decides (indexes it leaves out
    settle last, in index order); fulfils with every value, in the order of
    the promises, when none rejects. *)
Definition Promise_all {U} (promises : list (Completion U)) : Completion (list U) :=
  match firstRejection (settleOrder ++ seq 0 (List.length promises)) promises with
  | Some e => Throw e
  | None => Normal (fulfilledValues promises)
  end.

Definition mapAsync {T U} (inputs : list T) (computation : T -> nat -> Completion U)
  : Completion (list U) :=
  if (platform =? "win32")%string then
    mapAsync_loop computation inputs [] 0%nat
  else
    Promise_all (Array_map computation inputs).

(** ** sourceImages *)

(** The branch [Buffer.isBuffer(src)]. *)
Definition sourceImages_buffer (src : Buffer) : Completion (list SourceImage) :=
  match sharpMetadata src with
  | Normal metadata => Normal [ mkSourceImage src metadata ]
  | Throw _ => Throw (JsError "Invalid image buffer")
  end.

(** The call [sourceImages(buffer)] of the string branch lands in the buffer
    branch, which is [sourceImages_buffer]. *)
Fixpoint sourceImages (src : Src) : Completion (list SourceImage) :=
  match src with
  | SrcBuffer src => sourceImages_buffer src
  | SrcString src =>
      buffer <- readFile src ;;
      sourceImages_buffer buffer
  | SrcArray src =>
      if negb (existsb Array_isArray src) then
        if (List.length src =? 0)%nat then
          Throw (JsError "No source provided")
        else
          images <- mapAsync src (fun input _ => sourceImages input) ;;
          Normal (List.concat images)
      else
        Throw (JsError "Invalid source type provided")
  | SrcOther => Throw (JsError "Invalid source type provided")
  end.

(** ** Images.resize *)

Definition resize (source : SourceImage) (width height : Z) (pixelArt : bool)
  : Completion Buffer :=
  if (Metadata.format (metadata source) =? "svg")%string then
    let options := Some (svgDensity (metadata source) width height) in
    toBuffer
      (chain (sharp (data source) options)
             (Resize width height "contain" "#00000000" None))
  else
    toBuffer
      (chain (chain (sharp (data source) None) EnsureAlpha)
             (Resize width height "contain" "#00000000"
                (Some (if pixelArt
                          && (width >=? Metadata.width (metadata source))
                          && (height >=? Metadata.height (metadata source))
                       then "nearest"
                       else "lanczos3")))).

(** ** Images.createBlankImage *)

(** [!background] for [background?: string]: undefined and the empty string. *)
Definition falsy (background : option string) : bool :=
  match background with
  | None => true
  | Some s => (s =? "")%string
  end.

Definition strictEq (background : option string) (s : string) : bool :=
  match background with
  | None => false
  | Some b => (b =? s)%string
  end.

Definition createBlankImage (width height : Z) (background : option string) : Sharp :=
  let transparent := falsy background || strictEq background "transparent" in
  let image :=
    mkSharp (Create width height
               (if transparent then 4 else 3)
               (if transparent then Some "#00000000" else background)) [] in
  if transparent then chain image EnsureAlpha else image.

(** ** Images.createPlaneFavicon *)

(** [Math.round(n / d)] for integers [n] and [d > 0]: the nearest integer,
    a half going up. *)
Definition Math_round_div (n d : Z) : Z := (2 * n + d) / (2 * d).

(** [x || d] on a number; [None] is NaN. *)
Definition orElse (x : option Z) (d : Z) : Z :=
  match x with
  | Some z => if z =? 0 then d else z
  | None => d
  end.

Definition createPlaneFavicon (sourceset : list SourceImage)
    (options : IconPlaneOptions.t) (name : string) (raw : bool)
  : Completion FaviconImage :=
  let offset :=
    orElse
      (option_map
         (fun offset =>
            Math_round_div
              (Z.max (IconPlaneOptions.width options) (IconPlaneOptions.height options)
               * offset) 100)
         (IconPlaneOptions.offset options))
      0 in
  let width := IconPlaneOptions.width options - offset * 2 in
  let height := IconPlaneOptions.height options - offset * 2 in
  source <- bestSource sourceset width height ;;
  image <- resize source width height (IconPlaneOptions.pixelArt options) ;;
  let pipeline :=
    chain (createBlankImage (IconPlaneOptions.width options)
                            (IconPlaneOptions.height options)
                            (IconPlaneOptions.background options))
          (Composite [ overlay image offset offset ]) in
  let pipeline :=
    if IconPlaneOptions.rotate options then
      let degrees := 90 in
      chain pipeline (Rotate degrees)
    else pipeline in
  contents <-
    (if raw then
       r <- toBufferWithObject (chain (chain pipeline (ToColorspace "srgb")) (Raw "uchar")) ;;
       Normal (CRaw r)
     else
       b <- toBuffer (chain pipeline Png) ;;
       Normal (CBuffer b)) ;;
  Normal (mkFaviconImage name contents).

(** ** Images.createFavicon *)

Definition createFavicon (sourceset : list SourceImage) (name : string)
    (iconOptions : IconOptions.t) : Completion FaviconImage :=
  let properties := flattenIconOptions iconOptions in
  if (extname name =? ".ico")%string || negb (List.length properties =? 1)%nat then
    images <- mapAsync properties
                (fun props _ => createPlaneFavicon sourceset props (rawdataName props) true) ;;
    let contents := toIco (map contents images) in
    Normal (mkFaviconImage name (CBuffer contents))
  else
    match nth_error properties 0 with
    | Some props => createPlaneFavicon sourceset props name false
    | None => Throw (TypeError "Cannot read properties of undefined (reading 'width')")
    end.

(** ** What the engine is asked for *)

(** The size of the image after one operation, for the operations the helpers
    chain: a resize with a fit that fills the box yields the box, a quarter
    turn swaps the sides, nothing else changes the size. *)
Definition sizeAfter (size : Z * Z) (op : SharpOp) : Z * Z :=
  match op with
  | Resize width height _ _ _ => (width, height)
  | Rotate degrees => if degrees mod 180 =? 90 then (snd size, fst size) else size
  | _ => size
  end.

(** The pixel dimensions of a decoded buffer. *)
Fixpoint imageSize (b : Buffer) : option (Z * Z) :=
  match b with
  | Bytes _ =>
      match sharpMetadata b with
      | Normal m => Some (Metadata.width m, Metadata.height m)
      | Throw _ => None
      end
  | Encoded input ops => option_map (fun size => fold_left sizeAfter ops size) (inputSize input)
  end
with inputSize (i : SharpInput) : option (Z * Z) :=
  match i with
  | FromBuffer data _ => imageSize data
  | Create width height _ _ => Some (width, height)
  end.

Definition contentsBuffer (c : Contents) : Buffer :=
  match c with
  | CBuffer b => b
  | CRaw r => raw_data r
  end.

End Helpers.

(** ** The ranking in the words of the specification

    A candidate is ranked by format class (vector before raster), then scale
    direction (no upscale before upscale), then size distance (smaller is
    better); [rankLe] is the lexicographic order on these three. *)

Definition formatClass (icon : SourceImage) : Z :=
  if (Metadata.format (metadata icon) =? "svg")%string then 0 else 1.

Definition scaleDirection (sideSize : Z) (icon : SourceImage) : Z :=
  if sideSize <=? iconSideSize icon then 0 else 1.

Definition sizeDistance (sideSize : Z) (icon : SourceImage) : Z :=
  Z.abs (iconSideSize icon - sideSize).

Definition rankLe (sideSize : Z) (a b : SourceImage) : Prop :=
  formatClass a < formatClass b
  \/ (formatClass a = formatClass b
      /\ (scaleDirection sideSize a < scaleDirection sideSize b
          \/ (scaleDirection sideSize a = scaleDirection sideSize b
              /\ sizeDistance sideSize a <= sizeDistance sideSize b))).

(** Two candidates are tied when they agree on all three criteria. *)
Definition tied (sideSize : Z) (a b : SourceImage) : Prop :=
  formatClass a = formatClass b
  /\ scaleDirection sideSize a = scaleDirection sideSize b
  /\ sizeDistance sideSize a = sizeDistance sideSize b.

(** The tie rule in the words of the specification: no candidate that comes
    before the one returned is tied with it. *)
Definition firstTiedWins (sourceset : list SourceImage) (width height : Z) : Prop :=
  forall r, bestSource sourceset width height = Normal r ->
    exists pre post,
      sourceset = pre ++ r :: post
      /\ forall x, In x pre -> ~ tied (Z.max width height) x r.

(** ** The renderer and the assembler in the words of the specification *)

(** [r] is the integer nearest to [n / d], a half going up. *)
Definition nearestInteger (n d r : Z) : Prop :=
  2 * d * r - d <= 2 * n < 2 * d * r + d.

(** The operations chained before the first composite: the canvas. *)
Fixpoint beforeComposite (ops : list SharpOp) : list SharpOp :=
  match ops with
  | [] => []
  | Composite _ :: _ => []
  | op :: rest => op :: beforeComposite rest
  end.

Definition canvasOf (b : Buffer) : option Sharp :=
  match b with
  | Encoded input ops => Some (mkSharp input (beforeComposite ops))
  | Bytes _ => None
  end.

(** The canvas in the words of the specification. *)
Definition canvasAsSpecified (options : IconPlaneOptions.t) (canvas : Sharp) : Prop :=
  let width := IconPlaneOptions.width options in
  let height := IconPlaneOptions.height options in
  match IconPlaneOptions.background options with
  | None => input canvas = Create width height 4 (Some "#00000000")
  | Some color =>
      if (color =? "transparent")%string
      then input canvas = Create width height 4 (Some "#00000000")
      else input canvas = Create width height 3 (Some color)
           /\ (IconPlaneOptions.transparent options = true -> In EnsureAlpha (ops canvas))
  end.

(** A plane specification that the data model of the specification allows. *)
Definition validPlane (options : IconPlaneOptions.t) : Prop :=
  0 < IconPlaneOptions.width options
  /\ 0 < IconPlaneOptions.height options
  /\ match IconPlaneOptions.offset options with
     | None => True
     | Some percent => 0 <= percent < 100
     end.

(** The size property in the words of the specification. *)
Definition rendersAtSize {host : Host} (sourceset : list SourceImage)
    (options : IconPlaneOptions.t) (name0 : string) (raw : bool) : Prop :=
  exists img,
    createPlaneFavicon sourceset options name0 raw = Normal img
    /\ imageSize (contentsBuffer (contents img))
       = Some (IconPlaneOptions.width options, IconPlaneOptions.height options).

(** The container path in the words of the specification: every
    specification rendered as a raw plane through the fan-out coordinator, the
    ordered planes handed to the container encoder. *)
Definition containerOf {host : Host} (sourceset : list SourceImage) (name0 : string)
    (properties : list IconPlaneOptions.t) : Completion FaviconImage :=
  planes <- mapAsync properties
              (fun props _ => createPlaneFavicon sourceset props (rawdataName props) true) ;;
  Normal (mkFaviconImage name0 (CBuffer (toIco (map contents planes)))).

(** The decision rule in the words of the specification: a container exactly
    when the extension is ".ico" or there is more than one specification, the
    single specification rendered directly otherwise. *)
Definition decisionRuleAsSpecified {host : Host} (sourceset : list SourceImage)
    (name0 : string) (iconOptions : IconOptions.t) : Prop :=
  let properties := flattenIconOptions iconOptions in
  if (extname name0 =? ".ico")%string || (1 <? List.length properties)%nat
  then createFavicon sourceset name0 iconOptions = containerOf sourceset name0 properties
  else exists props,
         properties = [props]
         /\ createFavicon sourceset name0 iconOptions
            = createPlaneFavicon sourceset props name0 false.

(** ** A host to run the helpers on

    Images are three bytes: a format tag, a width and a height.  The engine
    accepts every pipeline, files do not exist but for one, and the encoder of
    the container writes its six-byte header. *)

Definition exampleMetadata (b : Buffer) : Completion Metadata.t :=
  match b with
  | Bytes [tag; w; h] =>
      Normal (Metadata.mk (if Byte.eqb tag Byte.x00 then "svg" else "png")
                          (Z.of_N (Byte.to_N w)) (Z.of_N (Byte.to_N h)))
  | _ => Throw (JsError "Input buffer contains unsupported image format")
  end.

(** The text from the last dot of a file name, when that dot is not its first
    character: [path.extname] on names without a directory part. *)
Fixpoint lastDot (s : string) : string :=
  match s with
  | EmptyString => ""
  | String c rest =>
      if (lastDot rest =? "")%string
      then (if Ascii.eqb c "." then s else "")
      else lastDot rest
  end.

Definition exampleExtname (s : string) : string :=
  match s with
  | EmptyString => ""
  | String _ rest => lastDot rest
  end.

Definition exampleHost (platformName : string) (order : list nat) : Host := {|
  platform := platformName;
  settleOrder := order;
  extname := exampleExtname;
  readFile := fun path =>
    if (path =? "icon.png")%string
    then Normal (Bytes [Byte.x01; Byte.x10; Byte.x10])
    else Throw (JsError "ENOENT: no such file or directory");
  sharpMetadata := exampleMetadata;
  sharpRun := fun image =>
    let size :=
      fold_left sizeAfter (ops image)
        (match input image with
         | Create width height _ _ => (width, height)
         | FromBuffer _ _ => (0, 0)
         end) in
    Normal (OutputInfo.mk (fst size) (snd size) 4 (fst size * snd size * 4));
  toIco := fun planes =>
    Bytes [Byte.x00; Byte.x00; Byte.x01; Byte.x00;
           nth (List.length planes) [Byte.x00; Byte.x01; Byte.x02; Byte.x03] Byte.xff;
           Byte.x00]
|}.

Definition linux : Host := exampleHost "linux" [].
Definition win32 : Host := exampleHost "win32" [].

Definition png16 : SourceImage :=
  mkSourceImage (Bytes [Byte.x01; Byte.x10; Byte.x10]) (Metadata.mk "png" 16 16).
Definition png16' : SourceImage :=
  mkSourceImage (Bytes [Byte.x02; Byte.x10; Byte.x10]) (Metadata.mk "png" 16 16).
Definition png64 : SourceImage :=
  mkSourceImage (Bytes [Byte.x01; Byte.x40; Byte.x40]) (Metadata.mk "png" 64 64).
Definition svg8 : SourceImage :=
  mkSourceImage (Bytes [Byte.x00; Byte.x08; Byte.x08]) (Metadata.mk "svg" 8 8).

Definition whiteOpaque : IconPlaneOptions.t :=
  IconPlaneOptions.mk 16 16 (Some 0) false (Some "#ffffff") true false.
Definition emptyBackground : IconPlaneOptions.t :=
  IconPlaneOptions.mk 16 16 (Some 0) false (Some "") false false.
Definition landscape : IconPlaneOptions.t :=
  IconPlaneOptions.mk 32 16 (Some 0) false None false true.
Definition padded : IconPlaneOptions.t :=
  IconPlaneOptions.mk 40 20 (Some 10) true None true false.
Definition noSizes : IconOptions.t :=
  IconOptions.mk [] None None Undefined true false.
Definition twoSizes : IconOptions.t :=
  IconOptions.mk [IconSize.mk 16 16; IconSize.mk 32 32] None None Undefined true false.

(** ** mapValues, filterKeys *)

(** An object used as a dictionary: its own properties, each key once, in the
    order in which [Object.entries] lists them. *)
Definition Dictionary (T : Type) : Type := list (string * T).

Definition Object_entries {T} (dict : Dictionary T) : list (string * T) := dict.

(** [dict[key] = value]: an existing property keeps its place. *)
Fixpoint setProperty {T} (key : string) (value : T) (dict : Dictionary T) : Dictionary T :=
  match dict with
  | [] => [(key, value)]
  | (k, v) :: rest =>
      if (k =? key)%string then (k, value) :: rest
      else (k, v) :: setProperty key value rest
  end.

Definition Object_fromEntries {T} (entries : list (string * T)) : Dictionary T :=
  fold_left (fun dict entry => setProperty (fst entry) (snd entry) dict) entries [].

(** [dict[key]], [None] for undefined. *)
Definition getProperty {T} (dict : Dictionary T) (key : string) : option T :=
  option_map snd (find (fun entry => (fst entry =? key)%string) dict).

Definition mapValues {T U} (dict : Dictionary T) (mapper : T -> string -> U)
  : Dictionary U :=
  Object_fromEntries
    (map (fun entry => let '(key, value) := entry in (key, mapper value key))
         (Object_entries dict)).

Definition filterKeys {T} (dict : Dictionary T) (predicate : string -> bool)
  : Dictionary T :=
  Object_fromEntries (filter (fun pair => predicate (fst pair)) (Object_entries dict)).

(** ** relativeTo *)

(** The URL class of the runtime, as far as [relativeTo] uses it: the
    constructor with a base that is a string or a URL, which throws on what it
    cannot parse, and three accessors. *)
Class UrlApi : Type := {
  URL : Type;
  newURL : string -> string + URL -> Completion URL;
  URL_protocol : URL -> string;
  URL_pathname : URL -> string;
  URL_toString : URL -> string
}.

(** [s.endsWith(suffix)] *)
Fixpoint endsWith (s suffix : string) : bool :=
  (s =? suffix)%string
  || match s with
     | EmptyString => false
     | String _ rest => endsWith rest suffix
     end.

(** [base] is undefined or null ([None]) or a string. *)
Definition relativeTo {url : UrlApi} (base : option string) (path : string)
  : Completion string :=
  match base with
  | None => Normal path
  | Some base =>
      if (base =? "")%string then Normal path
      else
        let directory := if endsWith base "/" then base else (base ++ "/")%string in
        resolve <- newURL directory (inl "resolve://") ;;
        url <- newURL path (inr resolve) ;;
        Normal (if (URL_protocol url =? "resolve:")%string
                then URL_pathname url
                else URL_toString url)
  end.

(** ** platforms/android.ts *)

(** An option that holds a source image or a flag: undefined, a boolean, a
    buffer, a path or an array. *)
Inductive OptionValue : Type :=
| OUndefined
| OBoolean (b : bool)
| OBuffer (b : Buffer)
| OString (s : string)
| OArray (l : list Src).

Definition truthy (v : OptionValue) : bool :=
  match v with
  | OUndefined => false
  | OBoolean b => b
  | OBuffer _ => true
  | OString s => negb (s =? "")%string
  | OArray _ => true
  end.

Definition isBoolean (v : OptionValue) : bool :=
  match v with
  | OBoolean _ => true
  | _ => false
  end.

(** The value as [sourceImages] sees it. *)
Definition asSrc (v : OptionValue) : Src :=
  match v with
  | OBuffer b => SrcBuffer b
  | OString s => SrcString s
  | OArray l => SrcArray l
  | _ => SrcOther
  end.

(** [!s] for [s?: string] *)
Definition emptyOrAbsent (s : option string) : bool :=
  match s with
  | None => true
  | Some s => (s =? "")%string
  end.

Module ShortcutOptions.
(** An element of [options.shortcuts]: the declaration (../config/defaults) is
    not among the sources; these are the fields that android.ts reads. *)
Record t : Type := mk {
  name : option string;
  short_name : option string;
  description : option string;
  url : option string;
  icon : OptionValue
}.
End ShortcutOptions.

Module AndroidPlatform.
(** The state of the platform object that [createImages] and
    [manifestShortcuts] read: [this.iconOptions], [this.options.manifestMaskable]
    and [this.options.shortcuts] ([None] when it is not an array). *)
Record t : Type := mk {
  iconOptions : Dictionary IconOptions.t;
  manifestMaskable : OptionValue;
  shortcuts : option (list ShortcutOptions.t)
}.
End AndroidPlatform.

(** ../config/icons, which is not among the sources. *)
Class IconsConfig : Type := {
  transparentIcon : Z -> IconOptions.t;
  maskable : IconOptions.t -> IconOptions.t
}.

Module ManifestIcon.
Record t : Type := mk { src : string; sizes : string; type : string }.
End ManifestIcon.

Module ManifestShortcut.
Record t : Type := mk {
  name : string;
  short_name : string;
  description : option string;
  url : string;
  icons : option (list ManifestIcon.t)
}.
End ManifestShortcut.

Section Android.
Context {host : Host} {url : UrlApi} {config : IconsConfig}.

Definition ICONS_OPTIONS_MASKABLE : Dictionary IconOptions.t :=
  [ ("android-chrome-maskable-36x36.png", maskable (transparentIcon 36));
    ("android-chrome-maskable-48x48.png", maskable (transparentIcon 48));
    ("android-chrome-maskable-72x72.png", maskable (transparentIcon 72));
    ("android-chrome-maskable-96x96.png", maskable (transparentIcon 96));
    ("android-chrome-maskable-144x144.png", maskable (transparentIcon 144));
    ("android-chrome-maskable-192x192.png", maskable (transparentIcon 192));
    ("android-chrome-maskable-256x256.png", maskable (transparentIcon 256));
    ("android-chrome-maskable-384x384.png", maskable (transparentIcon 384));
    ("android-chrome-maskable-512x512.png", maskable (transparentIcon 512)) ].

Definition SHORTCUT_ICONS_OPTIONS : Dictionary IconOptions.t :=
  [ ("36x36.png", transparentIcon 36);
    ("48x48.png", transparentIcon 48);
    ("72x72.png", transparentIcon 72);
    ("96x96.png", transparentIcon 96);
    ("144x144.png", transparentIcon 144);
    ("192x192.png", transparentIcon 192) ].

(** The template [shortcut${index + 1}-${shortcutName}]. *)
Definition shortcutFileName (index : nat) (shortcutName : string) : string :=
  ("shortcut" ++ Number_toString (Z.of_nat index + 1) ++ "-" ++ shortcutName)%string.

(** [array.flat()] on an array of nulls and arrays: a null stays, an array is
    spliced in. *)
Definition Array_flat {A} (array : list (option (list A))) : list (option A) :=
  flat_map (fun element =>
              match element with
              | None => [None]
              | Some inner => map Some inner
              end) array.

(** [mapAsync] on [this.options.shortcuts] that is not an array fails in the
    loop header on win32 and in the call of [map] elsewhere. *)
Definition shortcutIcons (this : AndroidPlatform.t)
  : Completion (list (option FaviconImage)) :=
  match AndroidPlatform.shortcuts this with
  | None =>
      if (platform =? "win32")%string
      then Throw (TypeError "inputs is not iterable")
      else Throw (TypeError "Cannot read properties of undefined (reading 'map')")
  | Some shortcuts =>
      icons <- mapAsync shortcuts
                 (fun shortcut index =>
                    if emptyOrAbsent (ShortcutOptions.name shortcut)
                       || emptyOrAbsent (ShortcutOptions.url shortcut)
                       || negb (truthy (ShortcutOptions.icon shortcut))
                    then Normal None
                    else
                      shortcutSourceset <-
                        sourceImages (asSrc (ShortcutOptions.icon shortcut)) ;;
                      images <- mapAsync (Object_entries SHORTCUT_ICONS_OPTIONS)
                                  (fun entry _ =>
                                     let '(shortcutName, option) := entry in
                                     createFavicon shortcutSourceset
                                       (shortcutFileName index shortcutName) option) ;;
                      Normal (Some images)) ;;
      Normal (Array_flat icons)
  end.

(** The elements of the result are images or, from [shortcutIcons], nulls. *)
Definition createImages (this : AndroidPlatform.t) (sourceset : list SourceImage)
  : Completion (list (option FaviconImage)) :=
  icons <- mapAsync (Object_entries (AndroidPlatform.iconOptions this))
             (fun entry _ =>
                let '(iconName, iconOption) := entry in
                createFavicon sourceset iconName iconOption) ;;
  let icons := map Some icons in
  icons <-
    (if truthy (AndroidPlatform.manifestMaskable this)
        && negb (isBoolean (AndroidPlatform.manifestMaskable this))
     then
       maskableSourceset <- sourceImages (asSrc (AndroidPlatform.manifestMaskable this)) ;;
       maskable <- mapAsync (Object_entries ICONS_OPTIONS_MASKABLE)
                     (fun entry _ =>
                        let '(iconName, iconOption) := entry in
                        createFavicon maskableSourceset iconName iconOption) ;;
       Normal (icons ++ map Some maskable)
     else Normal icons) ;;
  icons <-
    (match AndroidPlatform.shortcuts this with
     | Some shortcuts =>
         if (0 <? List.length shortcuts)%nat then
           shortcutImages <- shortcutIcons this ;;
           Normal (icons ++ shortcutImages)
         else Normal icons
     | None => Normal icons
     end) ;;
  Normal icons.

(** [array.map(callback)] for a callback that can throw: the first throw, in
    the order of the array, ends the map. *)
Fixpoint Array_map_throwing {A B} (callback : A -> nat -> Completion B) (index : nat)
    (array : list A) : Completion (list B) :=
  match array with
  | [] => Normal []
  | element :: rest =>
      b <- callback element index ;;
      bs <- Array_map_throwing callback (S index) rest ;;
      Normal (b :: bs)
  end.

(** [const { width, height } = option.sizes[0]] *)
Definition firstSize (option : IconOptions.t) : Completion IconSize.t :=
  match IconOptions.sizes option with
  | size :: _ => Normal size
  | [] => Throw (TypeError
                   "Cannot destructure property 'width' of 'option.sizes[0]' as it is undefined.")
  end.

Definition manifestShortcuts (this : AndroidPlatform.t) (basePath : option string)
  : Completion (list ManifestShortcut.t) :=
  match AndroidPlatform.shortcuts this with
  | None => Throw (TypeError "Cannot read properties of undefined (reading 'map')")
  | Some shortcuts =>
      mapped <-
        Array_map_throwing
          (fun shortcut index =>
             if emptyOrAbsent (ShortcutOptions.name shortcut)
                || emptyOrAbsent (ShortcutOptions.url shortcut)
             then Normal None
             else
               icons <-
                 (if truthy (ShortcutOptions.icon shortcut) then
                    icons <- Array_map_throwing
                               (fun entry (_ : nat) =>
                                  let '(shortcutName, option) := entry in
                                  size <- firstSize option ;;
                                  src <- relativeTo basePath
                                           (shortcutFileName index shortcutName) ;;
                                  Normal (ManifestIcon.mk
                                            src
                                            (Number_toString (IconSize.width size) ++ "x"
                                             ++ Number_toString (IconSize.height size))%string
                                            "image/png"))
                               0 (Object_entries SHORTCUT_ICONS_OPTIONS) ;;
                    Normal (Some icons)
                  else Normal None) ;;
               Normal (Some (ManifestShortcut.mk
                               (nullish (ShortcutOptions.name shortcut) "")
                               (if emptyOrAbsent (ShortcutOptions.short_name shortcut)
                                then nullish (ShortcutOptions.name shortcut) ""
                                else nullish (ShortcutOptions.short_name shortcut) "")
                               (ShortcutOptions.description shortcut)
                               (nullish (ShortcutOptions.url shortcut) "")
                               icons)))
          0 shortcuts ;;
      Normal (flat_map (fun x => match x with Some shortcut => [shortcut] | None => [] end)
                       mapped)
  end.

End Android.

(** ** Stand-ins for the URL class and for ../config/icons *)

(** URLs as plain paths: a path resolves against a base by concatenation, and
    every URL has the protocol of the placeholder base. *)
Definition exampleUrl : UrlApi := {|
  URL := string;
  newURL := fun input base =>
    match base with
    | inl _ => Normal input
    | inr resolved => Normal (resolved ++ input)%string
    end;
  URL_protocol := fun _ => "resolve:";
  URL_pathname := fun u => u;
  URL_toString := fun u => ("resolve://" ++ u)%string
|}.

Definition exampleIcons : IconsConfig := {|
  transparentIcon := fun size =>
    IconOptions.mk [IconSize.mk size size] (Some 0) None (Boolean false) true false;
  maskable := fun options =>
    IconOptions.mk (IconOptions.sizes options) (Some 10) (IconOptions.pixelArt options)
                   (Boolean true) false (IconOptions.rotate options)
|}.

Definition homeShortcut : ShortcutOptions.t :=
  ShortcutOptions.mk (Some "Home") None None (Some "/") (OBuffer (data png64)).
Definition namelessShortcut : ShortcutOptions.t :=
  ShortcutOptions.mk None None None (Some "/about") (OBuffer (data png64)).
Definition plainShortcut : ShortcutOptions.t :=
  ShortcutOptions.mk (Some "News") (Some "N") None (Some "/news") OUndefined.

Definition examplePlatform : AndroidPlatform.t :=
  AndroidPlatform.mk
    [("android-chrome-36x36.png", @transparentIcon exampleIcons 36);
     ("android-chrome-48x48.png", @transparentIcon exampleIcons 48)]
    (OBoolean true)
    (Some [namelessShortcut; homeShortcut; plainShortcut]).

Definition halfOffset : IconPlaneOptions.t :=
  IconPlaneOptions.mk 16 16 (Some 50) false None false false.

Definition exampleDictionary : Dictionary Z := [("small", 16); ("medium", 32); ("large", 64)].

(** ** The same host under another scheduling *)

(** The host [h] on another platform and with another order of settlement;
    the engine, the file system and the encoder stay the same. *)
Definition withScheduling (h : Host) (platformName : string) (order : list nat) : Host := {|
  platform := platformName;
  settleOrder := order;
  extname := @extname h;
  readFile := @readFile h;
  sharpMetadata := @sharpMetadata h;
  sharpRun := @sharpRun h;
  toIco := @toIco h
|}.

(** * Properties *)

(** ** The helpers at work *)

Example arrayComparator_prefix : arrayComparator [1; 2] [1; 2; 0] = -1.
Proof. reflexivity. Qed.

Example arrayComparator_second : arrayComparator [1; 0; 48] [1; 1; 8] = -1.
Proof. reflexivity. Qed.

Example bestSource_prefers_svg : bestSource [png16; svg8; png64] 16 16 = Normal svg8.
Proof. reflexivity. Qed.

Example bestSource_prefers_downscale : bestSource [png16; png64] 32 20 = Normal png64.
Proof. reflexivity. Qed.

Example exampleExtname_ico : exampleExtname "favicon.ico" = ".ico".
Proof. reflexivity. Qed.

Example exampleExtname_hidden : exampleExtname ".ico" = "".
Proof. reflexivity. Qed.

Example Math_round_div_half : Math_round_div 250 100 = 3 /\ Math_round_div 249 100 = 2.
Proof. split; reflexivity. Qed.

Example Math_round_div_negative_half : Math_round_div (-150) 100 = -1.
Proof. reflexivity. Qed.

Example sourceImages_nested_list :
  sourceImages (host := linux)
    (SrcArray [SrcBuffer (data png16); SrcArray [SrcBuffer (data png16)]])
  = Throw (JsError "Invalid source type provided").
Proof. reflexivity. Qed.

Example sourceImages_path : sourceImages (host := win32) (SrcString "icon.png") = Normal [png16].
Proof. reflexivity. Qed.

(** Two faulty elements: the sequential branch meets the undecodable buffer
    first; in the concurrent branch the promise that settles first decides. *)
Example sourceImages_two_faults :
  sourceImages (host := win32) (SrcArray [SrcBuffer (Bytes []); SrcOther])
  = Throw (JsError "Invalid image buffer")
  /\ sourceImages (host := exampleHost "linux" [1%nat])
       (SrcArray [SrcBuffer (Bytes []); SrcOther])
     = Throw (JsError "Invalid source type provided").
Proof. split; reflexivity. Qed.

Example createFavicon_ico :
  createFavicon (host := win32) [png16; png64] "favicon.ico" twoSizes
  = Normal (mkFaviconImage "favicon.ico"
              (CBuffer (Bytes [Byte.x00; Byte.x00; Byte.x01; Byte.x00; Byte.x02; Byte.x00]))).
Proof. reflexivity. Qed.

Example Number_toString_16 : rawdataName (IconPlaneOptions.mk 16 32 None false None false false) = "16x32.rawdata".
Proof. reflexivity. Qed.

(** ** arrayComparator is a three-way comparison of a total order *)

Lemma arrayComparator_refl (a : list Z) : arrayComparator a a = 0.
Proof.
  induction a as [|x a IH]; simpl; [reflexivity|].
  now rewrite Z.eqb_refl.
Qed.

Lemma arrayComparator_antisym (a b : list Z) :
  arrayComparator b a = - arrayComparator a b.
Proof.
  revert b; induction a as [|x a IH]; intros [|y b]; simpl; try reflexivity.
  rewrite (Z.eqb_sym y x).
  destruct (Z.eqb_spec x y) as [->|Hne]; simpl; [apply IH|].
  destruct (Z.ltb_spec x y), (Z.ltb_spec y x); simpl; try reflexivity; lia.
Qed.

Lemma arrayComparator_le_lt (a b c : list Z) :
  arrayComparator a b <= 0 -> arrayComparator b c < 0 -> arrayComparator a c < 0.
Proof.
  revert b c; induction a as [|x a IH]; intros [|y b] [|z c]; simpl; try lia.
  destruct (Z.eqb_spec x y) as [->|Hxy]; simpl.
  - destruct (Z.eqb_spec y z) as [->|Hyz]; simpl; [apply IH|tauto].
  - destruct (Z.ltb_spec x y); [|lia]; intros _.
    destruct (Z.eqb_spec y z) as [->|Hyz]; simpl.
    + intros _. destruct (Z.eqb_spec x z); simpl; [lia|].
      destruct (Z.ltb_spec x z); lia.
    + destruct (Z.ltb_spec y z); [|lia]; intros _.
      destruct (Z.eqb_spec x z); simpl; [lia|].
      destruct (Z.ltb_spec x z); lia.
Qed.

Lemma arrayComparator_le_trans (a b c : list Z) :
  arrayComparator a b <= 0 -> arrayComparator b c <= 0 -> arrayComparator a c <= 0.
Proof.
  revert b c; induction a as [|x a IH]; intros [|y b] [|z c]; simpl; try lia.
  destruct (Z.eqb_spec x y) as [->|Hxy]; simpl.
  - destruct (Z.eqb_spec y z) as [->|Hyz]; simpl; [apply IH|tauto].
  - destruct (Z.ltb_spec x y); [|lia]; intros _.
    destruct (Z.eqb_spec y z) as [->|Hyz]; simpl.
    + intros _. destruct (Z.eqb_spec x z); simpl; [lia|].
      destruct (Z.ltb_spec x z); lia.
    + destruct (Z.ltb_spec y z); [|lia]; intros _.
      destruct (Z.eqb_spec x z); simpl; [lia|].
      destruct (Z.ltb_spec x z); lia.
Qed.

(** ** minByKey returns the last of the least elements *)

Section MinByKey.
Variable T : Type.
Variable keyFn : T -> list Z.

Let step (acc cur : T) : T :=
  if arrayComparator (keyFn acc) (keyFn cur) <? 0 then acc else cur.

Lemma reduce_step_split (xs : list T) (x : T) :
  exists pre post,
    x :: xs = pre ++ fold_left step xs x :: post
    /\ (forall y, In y pre ->
          arrayComparator (keyFn (fold_left step xs x)) (keyFn y) <= 0)
    /\ (forall y, In y post ->
          arrayComparator (keyFn (fold_left step xs x)) (keyFn y) < 0).
Proof.
  induction xs as [|y xs IH] using rev_ind.
  - exists [], []. simpl. repeat split; intros ? [].
  - destruct IH as (pre & post & Heq & Hpre & Hpost).
    rewrite fold_left_app. simpl.
    set (m := fold_left step xs x) in *.
    assert (Hstep : step m y
                    = if arrayComparator (keyFn m) (keyFn y) <? 0 then m else y)
      by reflexivity.
    rewrite Hstep; clear Hstep.
    destruct (Z.ltb_spec (arrayComparator (keyFn m) (keyFn y)) 0) as [Hlt|Hge].
    + exists pre, (post ++ [y]). repeat split.
      * rewrite app_comm_cons, Heq, <- app_assoc. reflexivity.
      * exact Hpre.
      * intros z Hz. apply in_app_or in Hz as [Hz|[<-|[]]]; auto.
    + assert (Hym : arrayComparator (keyFn y) (keyFn m) <= 0)
        by (rewrite arrayComparator_antisym; lia).
      exists (pre ++ m :: post), []. repeat split.
      * rewrite app_comm_cons, Heq, <- app_assoc. reflexivity.
      * intros z Hz. apply in_app_or in Hz as [Hz|[<-|Hz]].
        -- eapply arrayComparator_le_trans; [exact Hym|auto].
        -- exact Hym.
        -- apply Z.lt_le_incl. eapply arrayComparator_le_lt; [exact Hym|auto].
      * intros ? [].
Qed.

Lemma minByKey_split (x : T) (xs : list T) :
  exists pre m post,
    minByKey (x :: xs) keyFn = Normal m
    /\ x :: xs = pre ++ m :: post
    /\ (forall y, In y pre -> arrayComparator (keyFn m) (keyFn y) <= 0)
    /\ (forall y, In y post -> arrayComparator (keyFn m) (keyFn y) < 0).
Proof.
  destruct (reduce_step_split xs x) as (pre & post & Heq & Hpre & Hpost).
  exists pre, (fold_left step xs x), post. repeat split; assumption.
Qed.

End MinByKey.

(** ** The comparison of two keys is the ranking of the specification *)

Lemma sourceKey_rankLe (sideSize : Z) (a b : SourceImage) :
  arrayComparator (sourceKey sideSize a) (sourceKey sideSize b) <= 0
  <-> rankLe sideSize a b.
Proof.
  unfold rankLe, sourceKey, formatClass, scaleDirection, sizeDistance. simpl.
  rewrite !Z.geb_leb.
  destruct (Metadata.format (metadata a) =? "svg")%string,
           (Metadata.format (metadata b) =? "svg")%string,
           (sideSize <=? iconSideSize a), (sideSize <=? iconSideSize b); simpl;
    try (destruct (Z.eqb_spec (Z.abs (iconSideSize a - sideSize))
                              (Z.abs (iconSideSize b - sideSize))); simpl;
         try destruct (Z.ltb_spec (Z.abs (iconSideSize a - sideSize))
                                  (Z.abs (iconSideSize b - sideSize))));
    lia.
Qed.

Lemma sourceKey_rankLt (sideSize : Z) (a b : SourceImage) :
  arrayComparator (sourceKey sideSize a) (sourceKey sideSize b) < 0
  <-> ~ rankLe sideSize b a.
Proof.
  rewrite <- sourceKey_rankLe, (arrayComparator_antisym (sourceKey sideSize a)). lia.
Qed.

Lemma rankLe_tied (sideSize : Z) (a b : SourceImage) :
  tied sideSize a b <-> rankLe sideSize a b /\ rankLe sideSize b a.
Proof. unfold tied, rankLe. lia. Qed.

Lemma bestSource_split (s : SourceImage) (ss : list SourceImage) (width height : Z) :
  exists pre r post,
    bestSource (s :: ss) width height = Normal r
    /\ s :: ss = pre ++ r :: post
    /\ (forall x, In x pre -> rankLe (Z.max width height) r x)
    /\ (forall x, In x post -> ~ rankLe (Z.max width height) x r).
Proof.
  destruct (minByKey_split (sourceKey (Z.max width height)) s ss)
    as (pre & r & post & Hr & Heq & Hpre & Hpost).
  exists pre, r, post. repeat split; auto.
  - intros x Hx. apply sourceKey_rankLe. auto.
  - intros x Hx. apply sourceKey_rankLt. auto.
Qed.

(** ** The source selector *)

(** C1, as stated, fails: of two raster sources of 16x16 that differ only in
    their bytes, tied on all three criteria, the selector returns the second,
    not the first-encountered one. *)
Lemma bestSource_first_tied_counterexample :
  tied (Z.max 16 16) png16 png16'
  /\ bestSource [png16; png16'] 16 16 = Normal png16'
  /\ ~ firstTiedWins [png16; png16'] 16 16.
Proof.
  assert (Htied : tied (Z.max 16 16) png16 png16') by (repeat split).
  repeat split; try reflexivity.
  intros H. destruct (H png16' eq_refl) as (pre & post & Heq & Hpre).
  destruct pre as [|p pre]; [discriminate Heq|].
  injection Heq as <- _. apply (Hpre png16); [now left|exact Htied].
Qed.

(** C1 (amended): for every non-empty source list and target size the selector
    returns the last-encountered candidate among those tied on all three
    criteria: the candidate returned ranks no later than any other, and no
    candidate that comes after it in the input is tied with it. *)
Theorem bestSource_last_tied (s : SourceImage) (ss : list SourceImage) (width height : Z) :
  exists pre r post,
    bestSource (s :: ss) width height = Normal r
    /\ s :: ss = pre ++ r :: post
    /\ (forall x, In x (s :: ss) -> rankLe (Z.max width height) r x)
    /\ (forall x, In x post -> ~ tied (Z.max width height) x r).
Proof.
  destruct (bestSource_split s ss width height)
    as (pre & r & post & Hr & Heq & Hpre & Hpost).
  exists pre, r, post. repeat split; auto.
  - intros x Hx. rewrite Heq in Hx. apply in_app_or in Hx as [Hx|[<-|Hx]].
    + auto.
    + unfold rankLe. lia.
    + specialize (Hpost x Hx). unfold rankLe in *. lia.
  - intros x Hx Ht. apply (Hpost x Hx). apply rankLe_tied in Ht. tauto.
Qed.

(** C4: for every non-empty source list and target dimensions the selector
    returns a candidate of the list that is minimal for the lexicographic order
    on (format class, scale direction, size distance); the result is a function
    of the arguments, a list that holds a vector source yields a vector source,
    and a vector source ranks strictly before every raster source. *)
Theorem bestSource_minimal (s : SourceImage) (ss : list SourceImage) (width height : Z) :
  exists r,
    bestSource (s :: ss) width height = Normal r
    /\ In r (s :: ss)
    /\ (forall x, In x (s :: ss) -> rankLe (Z.max width height) r x)
    /\ (forall r', bestSource (s :: ss) width height = Normal r' -> r' = r)
    /\ (forall x, In x (s :: ss) ->
          Metadata.format (metadata x) = "svg" -> Metadata.format (metadata r) = "svg")
    /\ (forall sideSize a b,
          Metadata.format (metadata a) = "svg" ->
          Metadata.format (metadata b) <> "svg" ->
          rankLe sideSize a b /\ ~ rankLe sideSize b a).
Proof.
  destruct (bestSource_split s ss width height) as (pre & r & post & Hr & Heq & Hpre & Hpost).
  assert (Hmin : forall x, In x (s :: ss) -> rankLe (Z.max width height) r x).
  { intros x Hx. rewrite Heq in Hx. apply in_app_or in Hx as [Hx|[<-|Hx]].
    - auto.
    - apply sourceKey_rankLe. rewrite arrayComparator_refl. lia.
    - specialize (Hpost x Hx). apply sourceKey_rankLt in Hpost.
      apply sourceKey_rankLe. lia. }
  exists r. repeat split.
  - exact Hr.
  - rewrite Heq. apply in_or_app. right. now left.
  - exact Hmin.
  - intros r' Hr'. congruence.
  - intros x Hx Hsvg. specialize (Hmin x Hx).
    unfold rankLe, formatClass in Hmin. rewrite Hsvg in Hmin. simpl in Hmin.
    destruct (Metadata.format (metadata r) =? "svg")%string eqn:E.
    + now apply String.eqb_eq.
    + lia.
  - unfold rankLe, formatClass.
    apply String.eqb_eq in H. apply String.eqb_neq in H0. rewrite H, H0. lia.
  - unfold rankLe, formatClass.
    apply String.eqb_eq in H. apply String.eqb_neq in H0. rewrite H, H0. lia.
Qed.

(** C10: on an empty source list the selector throws (the reduce has no
    initial value and no element), and on every non-empty list it returns an
    element of the list. *)
Theorem bestSource_empty_throws_else_member (width height : Z) :
  bestSource [] width height
  = Throw (TypeError "Reduce of empty array with no initial value")
  /\ (forall v, bestSource [] width height <> Normal v)
  /\ (forall s ss, exists r,
        bestSource (s :: ss) width height = Normal r /\ In r (s :: ss)).
Proof.
  split; [reflexivity|]. split.
  - intros v. discriminate.
  - intros s ss.
    destruct (bestSource_split s ss width height) as (pre & r & post & Hr & Heq & _).
    exists r. split; [exact Hr|].
    rewrite Heq. apply in_or_app. right. now left.
Qed.

(** ** The fan-out coordinator *)

Section MapAsyncProperties.
Context {host : Host}.
Variables T U : Type.
Variable computation : T -> nat -> Completion U.

Lemma mapAsync_loop_spec (inputs : list T) (result : list U) (index : nat) (rs : list U) :
  mapAsync_loop computation inputs result index = Normal rs
  <-> exists us, Array_map_from computation index inputs = map Normal us
                 /\ rs = result ++ us.
Proof.
  revert result index; induction inputs as [|x rest IH]; intros result index; simpl.
  - split.
    + intros [= <-]. exists []. now rewrite app_nil_r.
    + intros ([|u us] & Hmap & ->); [now rewrite app_nil_r|discriminate].
  - destruct (computation x index) as [u|e]; simpl.
    + rewrite IH. split.
      * intros (us & Hmap & ->). exists (u :: us). simpl.
        now rewrite Hmap, <- app_assoc.
      * intros ([|u' us] & Hmap & ->); [discriminate|].
        injection Hmap as <- Hmap. exists us. now rewrite <- app_assoc.
    + split; [discriminate|].
      intros ([|u' us] & Hmap & _); discriminate.
Qed.

Lemma firstRejection_None (order : list nat) (promises : list (Completion U)) :
  firstRejection order promises = None
  <-> forall i e, In i order -> nth_error promises i <> Some (Throw e).
Proof.
  induction order as [|i order IH]; simpl.
  - split; [intros _ ? ? []|reflexivity].
  - destruct (nth_error promises i) as [[u|e]|] eqn:E.
    + rewrite IH. split.
      * intros H j e' [<-|Hj]; [congruence|auto].
      * intros H j e' Hj. apply H. now right.
    + split; [discriminate|]. intros H. exfalso. apply (H i e); [now left|exact E].
    + rewrite IH. split.
      * intros H j e' [<-|Hj]; [congruence|auto].
      * intros H j e' Hj. apply H. now right.
Qed.

Lemma fulfilledValues_map (rs : list U) : fulfilledValues (map Normal rs) = rs.
Proof. induction rs as [|r rs IH]; simpl; congruence. Qed.

Lemma no_rejection_all_fulfilled (promises : list (Completion U)) :
  (forall i e, nth_error promises i <> Some (Throw e)) ->
  promises = map Normal (fulfilledValues promises).
Proof.
  induction promises as [|[u|e] rest IH]; intros H; simpl.
  - reflexivity.
  - f_equal. apply IH. intros i e. apply (H (S i) e).
  - exfalso. now apply (H 0%nat e).
Qed.

Lemma Promise_all_spec (promises : list (Completion U)) (rs : list U) :
  Promise_all promises = Normal rs <-> promises = map Normal rs.
Proof.
  unfold Promise_all. split.
  - destruct (firstRejection _ promises) eqn:E; [discriminate|].
    intros [= <-]. apply no_rejection_all_fulfilled.
    intros i e Hi. rewrite firstRejection_None in E.
    apply (E i e); [|exact Hi].
    apply in_or_app. right. apply in_seq.
    assert (i < List.length promises)%nat by (apply nth_error_Some; congruence).
    lia.
  - intros ->.
    assert (E : firstRejection (settleOrder ++ seq 0 (List.length (map Normal rs)))
                  (map Normal rs) = None).
    { apply firstRejection_None. intros i e _. rewrite nth_error_map.
      destruct (nth_error rs i); discriminate. }
    now rewrite E, fulfilledValues_map.
Qed.

Lemma mapAsync_spec (inputs : list T) (rs : list U) :
  mapAsync inputs computation = Normal rs
  <-> Array_map computation inputs = map Normal rs.
Proof.
  unfold mapAsync. destruct (platform =? "win32")%string.
  - rewrite mapAsync_loop_spec. unfold Array_map. split.
    + now intros (us & Hmap & ->).
    + intros Hmap. now exists rs.
  - apply Promise_all_spec.
Qed.

Lemma Array_map_from_positions (inputs : list T) (index : nat) (rs : list U) :
  Array_map_from computation index inputs = map Normal rs ->
  List.length rs = List.length inputs
  /\ forall i x, nth_error inputs i = Some x ->
       exists r, nth_error rs i = Some r /\ computation x (index + i)%nat = Normal r.
Proof.
  revert index rs; induction inputs as [|x rest IH]; intros index [|r rs]; simpl;
    try discriminate.
  - intros _. split; [reflexivity|]. intros [|i] y; discriminate.
  - intros [= Hx Hrest]. destruct (IH _ _ Hrest) as [Hlen Hpos].
    split; [now rewrite Hlen|].
    intros [|i] y; simpl.
    + intros [= <-]. exists r. now rewrite Nat.add_0_r.
    + intros Hy. destruct (Hpos i y Hy) as (r' & Hr' & Hc).
      exists r'. now rewrite Nat.add_succ_r.
Qed.

Lemma Array_map_from_total (inputs : list T) (index : nat) :
  (forall i x, nth_error inputs i = Some x ->
     exists r, computation x (index + i)%nat = Normal r) ->
  exists rs, Array_map_from computation index inputs = map Normal rs.
Proof.
  revert index; induction inputs as [|x rest IH]; intros index H; simpl.
  - now exists [].
  - destruct (H 0%nat x eq_refl) as (r & Hr). rewrite Nat.add_0_r in Hr.
    destruct (IH (S index)) as (rs & Hrs).
    { intros i y Hy. destruct (H (S i) y Hy) as (r' & Hr').
      exists r'. now rewrite Nat.add_succ_r in Hr'. }
    exists (r :: rs). simpl. now rewrite Hr, Hrs.
Qed.

Lemma firstRejection_Some (order : list nat) (promises : list (Completion U)) (e : Error) :
  firstRejection order promises = Some e ->
  exists i, nth_error promises i = Some (Throw e).
Proof.
  induction order as [|i order IH]; simpl; [discriminate|].
  destruct (nth_error promises i) as [[u|e']|] eqn:E; auto.
  intros [= <-]. now exists i.
Qed.

Lemma nth_error_Array_map_from (inputs : list T) (index i : nat) :
  nth_error (Array_map_from computation index inputs) i
  = option_map (fun x => computation x (index + i)%nat) (nth_error inputs i).
Proof.
  revert index i; induction inputs as [|x rest IH]; intros index [|i]; simpl;
    try reflexivity.
  - now rewrite Nat.add_0_r.
  - now rewrite IH, Nat.add_succ_r.
Qed.

Lemma mapAsync_loop_Throw (inputs : list T) (result : list U) (index : nat) (e : Error) :
  mapAsync_loop computation inputs result index = Throw e ->
  exists i x, nth_error inputs i = Some x /\ computation x (index + i)%nat = Throw e.
Proof.
  revert result index; induction inputs as [|x rest IH]; intros result index; simpl;
    [discriminate|].
  destruct (computation x index) as [u|e'] eqn:E; simpl.
  - intros H. destruct (IH _ _ H) as (i & y & Hy & Hc).
    exists (S i), y. now rewrite Nat.add_succ_r.
  - intros [= <-]. exists 0%nat, x. now rewrite Nat.add_0_r.
Qed.

(** A rejection of [mapAsync] is the rejection of one of the computations. *)
Lemma mapAsync_Throw (inputs : list T) (e : Error) :
  mapAsync inputs computation = Throw e ->
  exists i x, nth_error inputs i = Some x /\ computation x i = Throw e.
Proof.
  unfold mapAsync. destruct (platform =? "win32")%string.
  - apply mapAsync_loop_Throw.
  - unfold Promise_all.
    destruct (firstRejection _ _) as [e'|] eqn:E; [|discriminate].
    intros [= <-]. apply firstRejection_Some in E as (i & Hi).
    unfold Array_map in Hi. rewrite nth_error_Array_map_from in Hi.
    destruct (nth_error inputs i) as [x|] eqn:Ex; [|discriminate].
    exists i, x. simpl in Hi. split; congruence.
Qed.

(** When some computation rejects and every rejection has the same reason,
    that reason is the one surfaced, whatever the scheduling. *)
Lemma mapAsync_uniform_error (inputs : list T) (e : Error) :
  (exists i x, nth_error inputs i = Some x /\ computation x i = Throw e) ->
  (forall i x e', nth_error inputs i = Some x -> computation x i = Throw e' -> e' = e) ->
  mapAsync inputs computation = Throw e.
Proof.
  intros (i & x & Hx & Hc) Hsame.
  destruct (mapAsync inputs computation) as [rs|e'] eqn:E.
  - apply mapAsync_spec in E.
    destruct (Array_map_from_positions inputs 0 rs E) as [_ Hpos].
    destruct (Hpos i x Hx) as (r & _ & Hr). simpl in Hr. congruence.
  - destruct (mapAsync_Throw inputs E) as (j & y & Hy & Hcy).
    now rewrite (Hsame j y e' Hy Hcy).
Qed.

(** C9: the sequential branch and the concurrent branch fulfil with the same
    result lists; a fulfilled result list has one result per input, the result
    at each position being that of the computation on the input at that
    position; and when every computation fulfils, so does [mapAsync]. *)
Theorem mapAsync_positional (inputs : list T) :
  (forall rs,
     mapAsync_loop computation inputs [] 0%nat = Normal rs
     <-> Promise_all (Array_map computation inputs) = Normal rs)
  /\ ((exists e, mapAsync_loop computation inputs [] 0%nat = Throw e)
      <-> (exists e, Promise_all (Array_map computation inputs) = Throw e))
  /\ (forall rs,
        mapAsync inputs computation = Normal rs ->
        List.length rs = List.length inputs
        /\ forall i x, nth_error inputs i = Some x ->
             exists r, nth_error rs i = Some r /\ computation x i = Normal r)
  /\ ((forall i x, nth_error inputs i = Some x -> exists r, computation x i = Normal r) ->
      exists rs, mapAsync inputs computation = Normal rs).
Proof.
  assert (Hboth : forall rs,
     mapAsync_loop computation inputs [] 0%nat = Normal rs
     <-> Promise_all (Array_map computation inputs) = Normal rs).
  { intros rs. rewrite mapAsync_loop_spec, Promise_all_spec. unfold Array_map. split.
    - now intros (us & Hmap & ->).
    - intros Hmap. now exists rs. }
  split; [exact Hboth|]. split; [|split].
  - destruct (mapAsync_loop computation inputs [] 0%nat) as [rs|e] eqn:E1,
             (Promise_all (Array_map computation inputs)) as [rs'|e'] eqn:E2.
    + split; intros (? & ?); discriminate.
    + discriminate (proj1 (Hboth rs) eq_refl).
    + discriminate (proj2 (Hboth rs') eq_refl).
    + split; intros _; eexists; reflexivity.
  - intros rs Hrs. apply mapAsync_spec in Hrs.
    apply (Array_map_from_positions inputs 0 rs Hrs).
  - intros H. destruct (Array_map_from_total inputs 0 H) as (rs & Hrs).
    exists rs. now apply mapAsync_spec.
Qed.

End MapAsyncProperties.

(** ** The source loader *)

Section SourceLoader.
Context {host : Host}.

Lemma Array_map_from_ignoring_index (T U : Type) (g : T -> Completion U)
    (inputs : list T) (index : nat) :
  Array_map_from (fun input _ => g input) index inputs = map g inputs.
Proof.
  revert index; induction inputs as [|x rest IH]; intros index; simpl; congruence.
Qed.

Lemma sourceImages_flat (src : list Src) :
  existsb Array_isArray src = false ->
  src <> [] ->
  sourceImages (SrcArray src)
  = (images <- mapAsync src (fun input _ => sourceImages input) ;;
     Normal (List.concat images)).
Proof.
  intros Hflat Hne. destruct src as [|x rest]; [congruence|].
  cbn [sourceImages]. rewrite Hflat. reflexivity.
Qed.

Lemma sourceImages_nested (src : list Src) :
  existsb Array_isArray src = true ->
  sourceImages (SrcArray src) = Throw (JsError "Invalid source type provided").
Proof.
  intros Hnested. destruct src as [|x rest]; [discriminate|].
  cbn [sourceImages]. rewrite Hnested. reflexivity.
Qed.

Lemma sourceImages_buffers (bs : list Buffer) (ms : list Metadata.t) :
  map sharpMetadata bs = map Normal ms ->
  map sourceImages (map SrcBuffer bs)
  = map Normal (map (fun bm => [mkSourceImage (fst bm) (snd bm)]) (combine bs ms)).
Proof.
  revert ms; induction bs as [|b bs IH]; intros [|m ms]; simpl; try discriminate.
  - reflexivity.
  - intros [= Hb Hbs]. unfold sourceImages_buffer. rewrite Hb. f_equal. now apply IH.
Qed.

Lemma concat_singletons (A B : Type) (f : A -> B) (l : list A) :
  List.concat (map (fun a => [f a]) l) = map f l.
Proof. induction l as [|a l IH]; simpl; congruence. Qed.

(** C8: an undecodable buffer (handed over directly or read from a path) is
    refused with the invalid-image error, an empty list with the
    no-source error, a list that holds a list, a value that is neither buffer,
    path nor list, and a flat list whose only faulty elements are such values
    with the invalid-source-type error; a flat non-empty list is decoded
    element by element and the results are concatenated in the order of the
    input. *)
Theorem sourceImages_contract :
  (forall src, (exists e, sharpMetadata src = Throw e) ->
     sourceImages (SrcBuffer src) = Throw (JsError "Invalid image buffer"))
  /\ (forall path buffer, readFile path = Normal buffer ->
        (exists e, sharpMetadata buffer = Throw e) ->
        sourceImages (SrcString path) = Throw (JsError "Invalid image buffer"))
  /\ sourceImages (SrcArray []) = Throw (JsError "No source provided")
  /\ (forall src, (exists x, In x src /\ Array_isArray x = true) ->
        sourceImages (SrcArray src) = Throw (JsError "Invalid source type provided"))
  /\ sourceImages SrcOther = Throw (JsError "Invalid source type provided")
  /\ (forall src, existsb Array_isArray src = false -> In SrcOther src ->
        (forall x, In x src -> x = SrcOther \/ exists images, sourceImages x = Normal images) ->
        sourceImages (SrcArray src) = Throw (JsError "Invalid source type provided"))
  /\ (forall src images, existsb Array_isArray src = false -> src <> [] ->
        (sourceImages (SrcArray src) = Normal images
         <-> exists parts, map sourceImages src = map Normal parts
                           /\ images = List.concat parts))
  /\ (forall bs ms, bs <> [] -> map sharpMetadata bs = map Normal ms ->
        sourceImages (SrcArray (map SrcBuffer bs))
        = Normal (map (fun bm => mkSourceImage (fst bm) (snd bm)) (combine bs ms))).
Proof.
  assert (Hlist : forall src images, existsb Array_isArray src = false -> src <> [] ->
        (sourceImages (SrcArray src) = Normal images
         <-> exists parts, map sourceImages src = map Normal parts
                           /\ images = List.concat parts)).
  { intros src images Hflat Hne. rewrite (sourceImages_flat Hflat Hne).
    destruct (mapAsync src (fun input _ => sourceImages input)) as [parts|e] eqn:E; simpl.
    - apply mapAsync_spec in E. unfold Array_map in E.
      rewrite Array_map_from_ignoring_index in E. split.
      + intros [= <-]. now exists parts.
      + intros (parts' & Hparts & ->). rewrite E in Hparts.
        assert (parts = parts') as ->; [|reflexivity].
        clear -Hparts. revert parts' Hparts.
        induction parts as [|p parts IH]; intros [|p' parts']; simpl;
          try discriminate; [reflexivity|].
        intros [= -> H]. f_equal. now apply IH.
    - split; [discriminate|]. intros (parts & Hparts & _).
      assert (Hm : mapAsync src (fun input _ => sourceImages input) = Normal parts).
      { apply mapAsync_spec. unfold Array_map.
        now rewrite Array_map_from_ignoring_index. }
      congruence. }
  repeat split.
  - intros src (e & He). simpl. unfold sourceImages_buffer. now rewrite He.
  - intros path buffer Hread (e & He). simpl. rewrite Hread. simpl.
    unfold sourceImages_buffer. now rewrite He.
  - intros src (x & Hx & Harr). apply sourceImages_nested.
    apply existsb_exists. now exists x.
  - intros src Hflat Hother Hrest.
    assert (Hne : src <> []) by (intros ->; destruct Hother).
    rewrite (sourceImages_flat Hflat Hne).
    rewrite (@mapAsync_uniform_error _ _ _ (fun input _ => sourceImages input) src
               (JsError "Invalid source type provided")); [reflexivity| |].
    + apply In_nth_error in Hother as (i & Hi). now exists i, SrcOther.
    + intros i x e' Hx He'. apply nth_error_In in Hx.
      destruct (Hrest x Hx) as [->|(images & Himages)].
      * simpl in He'. congruence.
      * congruence.
  - apply Hlist; assumption.
  - apply Hlist; assumption.
  - intros bs ms Hne Hms. apply Hlist.
    + clear. induction bs as [|b bs IH]; simpl; auto.
    + destruct bs; [congruence|discriminate].
    + exists (map (fun bm => [mkSourceImage (fst bm) (snd bm)]) (combine bs ms)).
      split; [now apply sourceImages_buffers|].
      now rewrite concat_singletons.
Qed.

End SourceLoader.

(** ** The plane renderer *)

Section PlaneRenderer.
Context {host : Host}.

Lemma Math_round_div_nearest (n : Z) : nearestInteger n 100 (Math_round_div n 100).
Proof.
  unfold nearestInteger, Math_round_div.
  pose proof (Z.div_mod (2 * n + 100) (2 * 100) ltac:(lia)) as Hdiv.
  pose proof (Z.mod_pos_bound (2 * n + 100) (2 * 100) ltac:(lia)) as Hmod.
  lia.
Qed.

Lemma orElse_zero (x : Z) : orElse (Some x) 0 = x.
Proof. unfold orElse. destruct (Z.eqb_spec x 0); congruence. Qed.

(** The offset in pixels that [createPlaneFavicon] computes. *)
Lemma offset_cases (options : IconPlaneOptions.t) :
  let side := Z.max (IconPlaneOptions.width options) (IconPlaneOptions.height options) in
  let offset :=
    orElse (option_map (fun offset => Math_round_div (side * offset) 100)
                       (IconPlaneOptions.offset options)) 0 in
  match IconPlaneOptions.offset options with
  | None => offset = 0
  | Some percent => nearestInteger (side * percent) 100 offset
  end.
Proof.
  cbv zeta. destruct (IconPlaneOptions.offset options) as [percent|]; cbn [option_map].
  - rewrite orElse_zero. apply Math_round_div_nearest.
  - reflexivity.
Qed.

(** What a successful call has done: selected a source for the inner size,
    resized it, and run one pipeline on the blank image. *)
Lemma createPlaneFavicon_Normal (sourceset : list SourceImage)
    (options : IconPlaneOptions.t) (name0 : string) (raw : bool) (img : FaviconImage) :
  createPlaneFavicon sourceset options name0 raw = Normal img ->
  exists offset source image,
    match IconPlaneOptions.offset options with
    | None => offset = 0
    | Some percent =>
        nearestInteger
          (Z.max (IconPlaneOptions.width options) (IconPlaneOptions.height options) * percent)
          100 offset
    end
    /\ bestSource sourceset (IconPlaneOptions.width options - 2 * offset)
                  (IconPlaneOptions.height options - 2 * offset) = Normal source
    /\ resize source (IconPlaneOptions.width options - 2 * offset)
              (IconPlaneOptions.height options - 2 * offset)
              (IconPlaneOptions.pixelArt options) = Normal image
    /\ name img = name0
    /\ (if raw then exists r, contents img = CRaw r else exists b, contents img = CBuffer b)
    /\ contentsBuffer (contents img)
       = let canvas := createBlankImage (IconPlaneOptions.width options)
                                        (IconPlaneOptions.height options)
                                        (IconPlaneOptions.background options) in
         Encoded (input canvas)
           (ops canvas
            ++ Composite [overlay image offset offset]
            :: (if IconPlaneOptions.rotate options then [Rotate 90] else [])
            ++ (if raw then [ToColorspace "srgb"; Raw "uchar"] else [Png])).
Proof.
  unfold createPlaneFavicon.
  pose proof (offset_cases options) as Hoff. cbv zeta in Hoff.
  set (offset := orElse _ 0) in *.
  replace (offset * 2) with (2 * offset) by lia.
  destruct (bestSource sourceset _ _) as [source|e] eqn:Hsource; cbn [bind];
    [|discriminate].
  destruct (resize source _ _ _) as [image|e] eqn:Himage; cbn [bind]; [|discriminate].
  intros H. exists offset, source, image.
  split; [exact Hoff|]. split; [exact Hsource|]. split; [exact Himage|].
  destruct raw, (IconPlaneOptions.rotate options);
    unfold toBuffer, toBufferWithObject in H;
    destruct (sharpRun _) as [i|e]; cbn [bind] in H; try discriminate;
    injection H as <-; cbn [name contents contentsBuffer raw_data];
    repeat split; try (eexists; reflexivity);
    unfold chain; cbn [input ops]; rewrite <- ?app_assoc; reflexivity.
Qed.

(** C6: for a raster source, [resize] asks the engine to ensure an alpha
    channel and then to resize with fit contain on a fully transparent
    background, with the nearest kernel exactly when [pixelArt] is set and
    both target dimensions are at least the source's, and with lanczos3
    otherwise. *)
Theorem resize_raster (source : SourceImage) (width height : Z) (pixelArt : bool) :
  (Metadata.format (metadata source) =? "svg")%string = false ->
  exists kernel,
    resize source width height pixelArt
    = toBuffer (mkSharp (FromBuffer (data source) None)
                        [EnsureAlpha;
                         Resize width height "contain" "#00000000" (Some kernel)])
    /\ (kernel = "nearest"
        <-> pixelArt = true
            /\ Metadata.width (metadata source) <= width
            /\ Metadata.height (metadata source) <= height)
    /\ (kernel = "lanczos3"
        <-> ~ (pixelArt = true
               /\ Metadata.width (metadata source) <= width
               /\ Metadata.height (metadata source) <= height)).
Proof.
  intros Hraster. unfold resize. rewrite Hraster.
  destruct pixelArt; simpl;
    destruct (Z.geb_spec width (Metadata.width (metadata source)));
    destruct (Z.geb_spec height (Metadata.height (metadata source))); simpl;
    eexists; (split; [reflexivity|]);
    split; split; try discriminate; try lia; intros; try tauto;
    try (exfalso; lia); intuition (try discriminate; try lia).
Qed.

(** C7: the offset in pixels is 0 when the offset option is absent and
    otherwise the integer nearest to max(width, height) * offset / 100 (a half
    going up, 0 staying 0); the source selected for the inner size
    (width - 2 * offset) x (height - 2 * offset) is resized to that size, and
    the result is composited on the blank image at (offset, offset). *)
Theorem createPlaneFavicon_offset (sourceset : list SourceImage)
    (options : IconPlaneOptions.t) (name0 : string) (raw : bool) (img : FaviconImage) :
  createPlaneFavicon sourceset options name0 raw = Normal img ->
  exists offset source image rest,
    match IconPlaneOptions.offset options with
    | None => offset = 0
    | Some percent =>
        nearestInteger
          (Z.max (IconPlaneOptions.width options) (IconPlaneOptions.height options) * percent)
          100 offset
    end
    /\ bestSource sourceset (IconPlaneOptions.width options - 2 * offset)
                  (IconPlaneOptions.height options - 2 * offset) = Normal source
    /\ resize source (IconPlaneOptions.width options - 2 * offset)
              (IconPlaneOptions.height options - 2 * offset)
              (IconPlaneOptions.pixelArt options) = Normal image
    /\ canvasOf (contentsBuffer (contents img))
       = Some (createBlankImage (IconPlaneOptions.width options)
                                (IconPlaneOptions.height options)
                                (IconPlaneOptions.background options))
    /\ contentsBuffer (contents img)
       = Encoded (input (createBlankImage (IconPlaneOptions.width options)
                                          (IconPlaneOptions.height options)
                                          (IconPlaneOptions.background options)))
                 (ops (createBlankImage (IconPlaneOptions.width options)
                                        (IconPlaneOptions.height options)
                                        (IconPlaneOptions.background options))
                  ++ Composite [overlay image offset offset] :: rest).
Proof.
  intros H.
  destruct (createPlaneFavicon_Normal _ _ _ _ H)
    as (offset & source & image & Hoff & Hsource & Himage & _ & _ & Hbuf).
  exists offset, source, image. eexists.
  split; [exact Hoff|]. split; [exact Hsource|]. split; [exact Himage|].
  rewrite Hbuf. cbv zeta. split; [|reflexivity].
  unfold createBlankImage.
  destruct (falsy _ || strictEq _ _); reflexivity.
Qed.

(** C2 (amended): the canvas is a 4-channel image with zero alpha (on which
    [ensureAlpha] is chained) when the background option is absent, empty or
    equal to "transparent"; for every other background it is a 3-channel fill
    of the given colour on which nothing is chained, whatever the transparent
    flag of the options. *)
Theorem createPlaneFavicon_canvas (sourceset : list SourceImage)
    (options : IconPlaneOptions.t) (name0 : string) (raw : bool) (img : FaviconImage) :
  createPlaneFavicon sourceset options name0 raw = Normal img ->
  exists canvas,
    canvasOf (contentsBuffer (contents img)) = Some canvas
    /\ (IconPlaneOptions.background options = None
        \/ IconPlaneOptions.background options = Some ""
        \/ IconPlaneOptions.background options = Some "transparent" ->
        canvas = mkSharp (Create (IconPlaneOptions.width options)
                                 (IconPlaneOptions.height options) 4 (Some "#00000000"))
                         [EnsureAlpha])
    /\ (forall color, IconPlaneOptions.background options = Some color ->
          color <> "" -> color <> "transparent" ->
          canvas = mkSharp (Create (IconPlaneOptions.width options)
                                   (IconPlaneOptions.height options) 3 (Some color))
                           []).
Proof.
  intros H.
  destruct (createPlaneFavicon_Normal _ _ _ _ H)
    as (offset & source & image & _ & _ & _ & _ & _ & Hbuf).
  rewrite Hbuf. cbv zeta. unfold createBlankImage, falsy, strictEq.
  destruct (IconPlaneOptions.background options) as [color|].
  - destruct (String.eqb_spec color "") as [->|Hempty];
      [|destruct (String.eqb_spec color "transparent") as [->|Htransparent]];
      simpl; eexists; (split; [reflexivity|]); split; try reflexivity;
      try (intros c [= <-]; congruence);
      intros [?|[[= ?]|[= ?]]]; congruence.
  - simpl. eexists. split; [reflexivity|]. split; [reflexivity|].
    intros c; discriminate.
Qed.


End PlaneRenderer.

(** ** The icon assembler *)

Section IconAssembler.
Context {host : Host}.

Lemma map_Normal_Forall2 (T U : Type) (g : T -> Completion U) (l : list T) (rs : list U) :
  map g l = map Normal rs <-> Forall2 (fun x r => g x = Normal r) l rs.
Proof.
  revert rs; induction l as [|x l IH]; intros [|r rs]; simpl.
  - split; [constructor|reflexivity].
  - split; [discriminate|intros H; inversion H].
  - split; [discriminate|intros H; inversion H].
  - split.
    + intros [= Hx Hl]. constructor; [exact Hx|now apply IH].
    + intros H. inversion H; subst. f_equal; [assumption|now apply IH].
Qed.

(** C3 (amended): [createFavicon] takes the container path exactly when the
    extension of the name is ".ico" or the number of specifications is not one
    (none at all included): it then yields an artifact exactly when every
    specification renders as a raw plane, the artifact being the encoding of
    the planes in the order of the specifications; with another extension
    and a single specification it is the direct rendering of that
    specification as an encoded image. *)
Theorem createFavicon_rule (sourceset : list SourceImage) (name0 : string)
    (iconOptions : IconOptions.t) :
  (extname name0 = ".ico" \/ List.length (flattenIconOptions iconOptions) <> 1%nat ->
   createFavicon sourceset name0 iconOptions
   = containerOf sourceset name0 (flattenIconOptions iconOptions)
   /\ forall artifact,
        createFavicon sourceset name0 iconOptions = Normal artifact
        <-> exists planes,
              Forall2 (fun props plane =>
                         createPlaneFavicon sourceset props (rawdataName props) true
                         = Normal plane
                         /\ exists r, contents plane = CRaw r)
                      (flattenIconOptions iconOptions) planes
              /\ artifact = mkFaviconImage name0 (CBuffer (toIco (map contents planes))))
  /\ (extname name0 <> ".ico" ->
      forall props, flattenIconOptions iconOptions = [props] ->
        createFavicon sourceset name0 iconOptions
        = createPlaneFavicon sourceset props name0 false
        /\ forall img, createFavicon sourceset name0 iconOptions = Normal img ->
             exists b, contents img = CBuffer b).
Proof.
  split.
  - intros Hcond.
    assert (Hpath : createFavicon sourceset name0 iconOptions
                    = containerOf sourceset name0 (flattenIconOptions iconOptions)).
    { unfold createFavicon. cbv zeta.
      destruct (String.eqb_spec (extname name0) ".ico") as [Hext|Hext]; [reflexivity|].
      destruct (Nat.eqb_spec (List.length (flattenIconOptions iconOptions)) 1)
        as [Hlen|Hlen]; [|reflexivity].
      destruct Hcond; contradiction. }
    split; [exact Hpath|]. intros artifact. rewrite Hpath. unfold containerOf.
    destruct (mapAsync _ _) as [planes|e] eqn:E; cbn [bind].
    + apply mapAsync_spec in E. unfold Array_map in E.
      rewrite Array_map_from_ignoring_index in E.
      pose proof (proj1 (map_Normal_Forall2 _ _ _) E) as HF.
      assert (HF' : Forall2 (fun props plane =>
                         createPlaneFavicon sourceset props (rawdataName props) true
                         = Normal plane
                         /\ exists r, contents plane = CRaw r)
                      (flattenIconOptions iconOptions) planes).
      { clear -HF. induction HF as [|props plane l l' Hp HF IH]; constructor; auto.
        split; [exact Hp|].
        destruct (createPlaneFavicon_Normal _ _ _ _ Hp)
          as (? & ? & ? & _ & _ & _ & _ & Hraw & _). exact Hraw. }
      split.
      * intros [= <-]. now exists planes.
      * intros (planes' & HF2 & ->).
        assert (planes' = planes) as ->; [|reflexivity].
        clear -HF HF2. revert planes' HF2.
        induction HF as [|props plane l l' Hp HF IH]; intros planes' HF2;
          inversion HF2 as [|? plane' ? ? [Hq _] HF3]; subst; [reflexivity|].
        f_equal; [congruence|now apply IH].
    + split; [discriminate|]. intros (planes & HF & _). exfalso.
      assert (Hm : map (fun props => createPlaneFavicon sourceset props (rawdataName props) true)
                       (flattenIconOptions iconOptions) = map Normal planes).
      { apply map_Normal_Forall2. clear -HF.
        induction HF as [|props plane l l' [Hp _] HF IH]; constructor; auto. }
      rewrite <- (Array_map_from_ignoring_index _ _ 0) in Hm.
      apply (mapAsync_spec (fun props (_ : nat) =>
               createPlaneFavicon sourceset props (rawdataName props) true)) in Hm.
      congruence.
  - intros Hext props Hprops. 
    assert (Hpath : createFavicon sourceset name0 iconOptions
                    = createPlaneFavicon sourceset props name0 false).
    { unfold createFavicon. cbv zeta. rewrite Hprops.
      destruct (String.eqb_spec (extname name0) ".ico"); [contradiction|reflexivity]. }
    split; [exact Hpath|]. intros img. rewrite Hpath. intros H.
    destruct (createPlaneFavicon_Normal _ _ _ _ H)
      as (? & ? & ? & _ & _ & _ & _ & Hbuf & _). exact Hbuf.
Qed.

End IconAssembler.

(** ** The renderer and the assembler on the example host *)

(** C2, as stated, fails: with the background "#ffffff" and the transparent
    flag set the canvas is a 3-channel fill on which no alpha channel is
    ensured; and with the empty string as background, which is neither absent
    nor "transparent", the canvas is the 4-channel transparent one. *)
Lemma createPlaneFavicon_canvas_counterexample :
  (exists img canvas,
     createPlaneFavicon (host := linux) [png16] whiteOpaque "icon.png" false = Normal img
     /\ canvasOf (contentsBuffer (contents img)) = Some canvas
     /\ canvas = mkSharp (Create 16 16 3 (Some "#ffffff")) []
     /\ ~ canvasAsSpecified whiteOpaque canvas)
  /\ (exists img canvas,
        createPlaneFavicon (host := linux) [png16] emptyBackground "icon.png" false
        = Normal img
        /\ canvasOf (contentsBuffer (contents img)) = Some canvas
        /\ canvas = mkSharp (Create 16 16 4 (Some "#00000000")) [EnsureAlpha]
        /\ ~ canvasAsSpecified emptyBackground canvas).
Proof.
  split; do 2 eexists; (split; [reflexivity|]); (split; [reflexivity|]);
    (split; [reflexivity|]); unfold canvasAsSpecified; simpl.
  - intros [_ H]. exact (H eq_refl).
  - intros [H _]. discriminate H.
Qed.


(** C3, as stated, fails: with no specification at all and the name
    "favicon.png" the container path is taken, though the extension is not
    ".ico" and there are not two specifications, and no single specification
    is rendered. *)
Lemma createFavicon_rule_counterexample :
  createFavicon (host := linux) [png16] "favicon.png" noSizes
  = Normal (mkFaviconImage "favicon.png" (CBuffer (toIco (Host := linux) [])))
  /\ ~ decisionRuleAsSpecified (host := linux) [png16] "favicon.png" noSizes.
Proof.
  split; [reflexivity|].
  unfold decisionRuleAsSpecified. simpl. intros (props & H & _). discriminate H.
Qed.

(** C6 at work: a 16x16 raster source enlarged to 32x32 as pixel art. *)
Lemma resize_raster_witness :
  (Metadata.format (metadata png16) =? "svg")%string = false
  /\ exists kernel,
       resize (host := linux) png16 32 32 true
       = toBuffer (host := linux)
           (mkSharp (FromBuffer (data png16) None)
                    [EnsureAlpha; Resize 32 32 "contain" "#00000000" (Some kernel)])
       /\ (kernel = "nearest"
           <-> true = true
               /\ Metadata.width (metadata png16) <= 32
               /\ Metadata.height (metadata png16) <= 32)
       /\ (kernel = "lanczos3"
           <-> ~ (true = true
                  /\ Metadata.width (metadata png16) <= 32
                  /\ Metadata.height (metadata png16) <= 32)).
Proof.
  split; [reflexivity|].
  apply (resize_raster (host := linux) png16 32 32 true). reflexivity.
Defined.

(** C7 at work: a 40x20 plane with an offset of 10 percent. *)
Lemma createPlaneFavicon_offset_witness :
  exists img,
    createPlaneFavicon (host := linux) [png16; png64] padded "icon.png" false = Normal img
    /\ exists offset source image rest,
         nearestInteger (Z.max 40 20 * 10) 100 offset
         /\ bestSource [png16; png64] (40 - 2 * offset) (20 - 2 * offset) = Normal source
         /\ resize (host := linux) source (40 - 2 * offset) (20 - 2 * offset) true
            = Normal image
         /\ canvasOf (contentsBuffer (contents img)) = Some (createBlankImage 40 20 None)
         /\ contentsBuffer (contents img)
            = Encoded (input (createBlankImage 40 20 None))
                      (ops (createBlankImage 40 20 None)
                       ++ Composite [overlay image offset offset] :: rest).
Proof.
  eexists. split; [reflexivity|].
  apply (createPlaneFavicon_offset (host := linux) [png16; png64] padded "icon.png" false).
  reflexivity.
Defined.

(** C2 (amended) at work: a white background with the transparent flag set. *)
Lemma createPlaneFavicon_canvas_witness :
  exists img,
    createPlaneFavicon (host := linux) [png16] whiteOpaque "icon.png" true = Normal img
    /\ exists canvas,
         canvasOf (contentsBuffer (contents img)) = Some canvas
         /\ (Some "#ffffff" = None \/ Some "#ffffff" = Some "" \/ Some "#ffffff" = Some "transparent" ->
             canvas = mkSharp (Create 16 16 4 (Some "#00000000")) [EnsureAlpha])
         /\ (forall color, Some "#ffffff" = Some color ->
               color <> "" -> color <> "transparent" ->
               canvas = mkSharp (Create 16 16 3 (Some color)) []).
Proof.
  eexists. split; [reflexivity|].
  apply (createPlaneFavicon_canvas (host := linux) [png16] whiteOpaque "icon.png" true).
  reflexivity.
Defined.


(** C3 (amended) at work: two sizes under a name that ends in .png. *)
Lemma createFavicon_rule_witness :
  (exampleExtname "favicon.png" = ".ico"
   \/ List.length (flattenIconOptions twoSizes) <> 1%nat)
  /\ createFavicon (host := linux) [png16] "favicon.png" twoSizes
     = containerOf (host := linux) [png16] "favicon.png" (flattenIconOptions twoSizes).
Proof.
  assert (H : exampleExtname "favicon.png" = ".ico"
              \/ List.length (flattenIconOptions twoSizes) <> 1%nat)
    by (right; simpl; lia).
  split; [exact H|].
  exact (proj1 (proj1 (createFavicon_rule (host := linux) [png16] "favicon.png" twoSizes) H)).
Defined.

(** * Further properties of the helpers *)

(** ** arrayComparator and minBy *)

Lemma arrayComparator_zero (a b : list Z) : arrayComparator a b = 0 <-> a = b.
Proof.
  revert b; induction a as [|x a IH]; intros [|y b]; simpl;
    try (split; [lia|discriminate]); [tauto|].
  destruct (Z.eqb_spec x y) as [->|Hne]; simpl.
  - rewrite IH. split; [now intros ->|now intros [= ->]].
  - split; [destruct (x <? y); lia|intros [= ? ?]; contradiction].
Qed.

Lemma arrayComparator_sign (a b : list Z) :
  arrayComparator a b = -1 \/ arrayComparator a b = 0 \/ arrayComparator a b = 1.
Proof.
  revert b; induction a as [|x a IH]; intros [|y b]; simpl; auto.
  destruct (x =? y); simpl; [apply IH|destruct (x <? y); auto].
Qed.



(** X3: whatever the comparator, consistent or not, [minBy] throws on the
    empty array only, returns the element of a one-element array, and
    returns an element of the array otherwise. *)
Theorem minBy_any_comparator (T : Type) (comparator : T -> T -> Z) :
  (exists e, minBy [] comparator = Throw e)
  /\ (forall x, minBy [x] comparator = Normal x)
  /\ (forall x xs, exists r, minBy (x :: xs) comparator = Normal r /\ In r (x :: xs)).
Proof.
  split; [eexists; reflexivity|]. split; [reflexivity|].
  intros x xs. unfold minBy, reduce. eexists. split; [reflexivity|].
  revert x. induction xs as [|y xs IH]; intros x; simpl; [now left|].
  destruct (comparator x y <? 0).
  - destruct (IH x) as [<-|H]; [now left|right; now right].
  - right. apply IH.
Qed.

(** ** More on the source selector *)

Lemma bestSource_Normal_split (ss : list SourceImage) (width height : Z) (r : SourceImage) :
  bestSource ss width height = Normal r ->
  In r ss /\ forall x, In x ss -> rankLe (Z.max width height) r x.
Proof.
  destruct ss as [|s ss]; [discriminate|].
  destruct (bestSource_split s ss width height)
    as (pre & r' & post & Hr & Heq & Hpre & Hpost).
  rewrite Hr. intros [= <-]. split.
  - rewrite Heq. apply in_or_app. right. now left.
  - intros x Hx. rewrite Heq in Hx. apply in_app_or in Hx as [Hx|[<-|Hx]].
    + auto.
    + unfold rankLe. lia.
    + specialize (Hpost x Hx). unfold rankLe in *. lia.
Qed.

(** X4: the rank of the source selected does not depend on the order of the
    source list: on two lists with the same elements the selected sources are
    tied on all three criteria (they are the same source unless several are
    tied for the first rank). *)
Theorem bestSource_same_candidates (ss ss' : list SourceImage) (width height : Z)
    (r r' : SourceImage) :
  (forall x, In x ss <-> In x ss') ->
  bestSource ss width height = Normal r ->
  bestSource ss' width height = Normal r' ->
  tied (Z.max width height) r r'
  /\ sourceKey (Z.max width height) r = sourceKey (Z.max width height) r'.
Proof.
  intros Hsame Hr Hr'.
  apply bestSource_Normal_split in Hr as [Hin Hmin].
  apply bestSource_Normal_split in Hr' as [Hin' Hmin'].
  assert (Ht : tied (Z.max width height) r r').
  { apply rankLe_tied. split.
    - apply Hmin. now apply Hsame.
    - apply Hmin'. now apply Hsame. }
  split; [exact Ht|].
  apply arrayComparator_zero.
  pose proof (proj2 (sourceKey_rankLe (Z.max width height) r r')) as H1.
  pose proof (proj2 (sourceKey_rankLe (Z.max width height) r' r)) as H2.
  apply rankLe_tied in Ht as [Ha Hb].
  specialize (H1 Ha). specialize (H2 Hb).
  rewrite (arrayComparator_antisym (sourceKey _ r)) in H2. lia.
Qed.


Lemma bestSource_same_candidates_witness :
  (forall x, In x [png16; png64] <-> In x [png64; png16])
  /\ bestSource [png16; png64] 32 32 = Normal png64
  /\ bestSource [png64; png16] 32 32 = Normal png64
  /\ tied (Z.max 32 32) png64 png64
  /\ sourceKey (Z.max 32 32) png64 = sourceKey (Z.max 32 32) png64.
Proof.
  assert (H : forall x, In x [png16; png64] <-> In x [png64; png16])
    by (intros x; simpl; tauto).
  split; [exact H|]. split; [reflexivity|]. split; [reflexivity|].
  exact (bestSource_same_candidates [png16; png64] [png64; png16] 32 32 H eq_refl eq_refl).
Defined.


(** ** More on the fan-out coordinator *)

Section MapAsyncFailures.
Context {host : Host}.
Variables T U : Type.
Variable computation : T -> nat -> Completion U.

Lemma mapAsync_loop_first_failure (inputs : list T) (result : list U) (index : nat)
    (e : Error) :
  mapAsync_loop computation inputs result index = Throw e
  <-> exists i x,
        nth_error inputs i = Some x
        /\ computation x (index + i)%nat = Throw e
        /\ forall j y, (j < i)%nat -> nth_error inputs j = Some y ->
             exists u, computation y (index + j)%nat = Normal u.
Proof.
  revert result index; induction inputs as [|x rest IH]; intros result index; simpl.
  - split; [discriminate|]. intros ([|i] & y & Hy & _); discriminate.
  - destruct (computation x index) as [u|e'] eqn:E; simpl.
    + rewrite IH. split.
      * intros (i & y & Hy & Hc & Hbefore). exists (S i), y.
        split; [exact Hy|]. split; [now rewrite Nat.add_succ_r|].
        intros [|j] z Hj Hz.
        -- injection Hz as <-. exists u. now rewrite Nat.add_0_r.
        -- rewrite Nat.add_succ_r. apply (Hbefore j z); [lia|exact Hz].
      * intros ([|i] & y & Hy & Hc & Hbefore).
        -- injection Hy as <-. rewrite Nat.add_0_r in Hc. congruence.
        -- exists i, y. split; [exact Hy|]. split; [now rewrite Nat.add_succ_r in Hc|].
           intros j z Hj Hz. specialize (Hbefore (S j) z ltac:(lia) Hz).
           now rewrite Nat.add_succ_r in Hbefore.
    + split.
      * intros [= <-]. exists 0%nat, x. split; [reflexivity|].
        split; [now rewrite Nat.add_0_r|]. intros j y Hj. lia.
      * intros ([|i] & y & Hy & Hc & Hbefore).
        -- injection Hy as <-. rewrite Nat.add_0_r in Hc. congruence.
        -- destruct (Hbefore 0%nat x ltac:(lia) eq_refl) as (u & Hu).
           rewrite Nat.add_0_r in Hu. congruence.
Qed.

(** X6: on win32, where the computations run one after the other, [mapAsync]
    rejects with the reason of the first computation, in input order, that
    rejects: every computation before it has fulfilled. *)
Theorem mapAsync_sequential_first_failure (inputs : list T) (e : Error) :
  (platform =? "win32")%string = true ->
  (mapAsync inputs computation = Throw e
   <-> exists i x,
         nth_error inputs i = Some x
         /\ computation x i = Throw e
         /\ forall j y, (j < i)%nat -> nth_error inputs j = Some y ->
              exists u, computation y j = Normal u).
Proof.
  intros Hwin. unfold mapAsync. rewrite Hwin.
  apply (mapAsync_loop_first_failure inputs [] 0 e).
Qed.

(** X7: under both schedulings [mapAsync] rejects exactly when one of the
    computations rejects, and the reason surfaced is the reason of one of
    them. *)
Theorem mapAsync_rejects_iff (inputs : list T) :
  ((exists e, mapAsync inputs computation = Throw e)
   <-> exists i x e, nth_error inputs i = Some x /\ computation x i = Throw e)
  /\ (forall e, mapAsync inputs computation = Throw e ->
        exists i x, nth_error inputs i = Some x /\ computation x i = Throw e).
Proof.
  split; [|intros e; apply mapAsync_Throw].
  split.
  - intros (e & He). destruct (mapAsync_Throw _ _ He) as (i & x & Hx & Hc).
    now exists i, x, e.
  - intros (i & x & e & Hx & Hc).
    destruct (mapAsync inputs computation) as [rs|e'] eqn:E; [|now exists e'].
    apply mapAsync_spec in E.
    destruct (Array_map_from_positions _ inputs 0 rs E) as [_ Hpos].
    destruct (Hpos i x Hx) as (r & _ & Hr). simpl in Hr. congruence.
Qed.

Lemma mapAsync_singleton (x : T) :
  mapAsync [x] computation = (u <- computation x 0%nat ;; Normal [u]).
Proof.
  destruct (computation x 0%nat) as [u|e] eqn:E; simpl.
  - apply mapAsync_spec. unfold Array_map. simpl. now rewrite E.
  - apply mapAsync_uniform_error.
    + now exists 0%nat, x.
    + intros [|i] y e' Hy Hc.
      * injection Hy as <-. congruence.
      * destruct i; discriminate.
Qed.

End MapAsyncFailures.

Lemma mapAsync_sequential_first_failure_witness :
  (@platform win32 =? "win32")%string = true
  /\ (mapAsync (host := win32) [1; 0; 2]
        (fun x (_ : nat) => if x =? 0 then Throw (JsError "zero") else Normal x)
      = Throw (JsError "zero")
      <-> exists i x,
            nth_error [1; 0; 2] i = Some x
            /\ (if x =? 0 then Throw (JsError "zero") else Normal x) = Throw (JsError "zero")
            /\ forall j y, (j < i)%nat -> nth_error [1; 0; 2] j = Some y ->
                 exists u, (if y =? 0 then Throw (JsError "zero") else Normal y) = Normal u).
Proof.
  split; [reflexivity|].
  apply (mapAsync_sequential_first_failure (host := win32)
           (fun x (_ : nat) => if x =? 0 then Throw (JsError "zero") else Normal x)
           [1; 0; 2] (JsError "zero")).
  reflexivity.
Defined.

(** ** More on the source loader *)

Section SourceLoaderMore.
Context {host : Host}.

Lemma sourceImages_flat_Normal (src : list Src) (images : list SourceImage) :
  existsb Array_isArray src = false -> src <> [] ->
  (sourceImages (SrcArray src) = Normal images
   <-> exists parts, map sourceImages src = map Normal parts
                     /\ images = List.concat parts).
Proof.
  intros Hflat Hne. rewrite (sourceImages_flat Hflat Hne).
  destruct (mapAsync src (fun input _ => sourceImages input)) as [parts|e] eqn:E;
    cbn [bind].
  - apply mapAsync_spec in E. unfold Array_map in E.
    rewrite Array_map_from_ignoring_index in E. split.
    + intros [= <-]. now exists parts.
    + intros (parts' & Hparts & ->). rewrite E in Hparts.
      apply map_Normal_Forall2 in Hparts. f_equal. f_equal.
      clear -Hparts. revert parts' Hparts.
      induction parts as [|p parts IH]; intros parts' H; inversion H; subst;
        [reflexivity|].
      f_equal; [congruence|now apply IH].
  - split; [discriminate|]. intros (parts & Hparts & _).
    assert (Hm : mapAsync src (fun input _ => sourceImages input) = Normal parts).
    { apply mapAsync_spec. unfold Array_map.
      now rewrite Array_map_from_ignoring_index. }
    congruence.
Qed.

Lemma sourceImages_array_cases (src : list Src) :
  (existsb Array_isArray src = true
   /\ sourceImages (SrcArray src) = Throw (JsError "Invalid source type provided"))
  \/ (src = [] /\ sourceImages (SrcArray src) = Throw (JsError "No source provided"))
  \/ (existsb Array_isArray src = false /\ src <> []).
Proof.
  destruct (existsb Array_isArray src) eqn:E.
  - left. split; [reflexivity|]. now apply sourceImages_nested.
  - right. destruct src as [|x rest]; [left; now split|right; now split].
Qed.

(** What one element that is not an array loads to. *)
Lemma sourceImages_element (x : Src) (part : list SourceImage) :
  Array_isArray x = false ->
  sourceImages x = Normal part ->
  exists img, part = [img] /\ sharpMetadata (data img) = Normal (metadata img).
Proof.
  destruct x as [b|path|l|]; try discriminate; intros _; simpl.
  - unfold sourceImages_buffer. destruct (sharpMetadata b) as [m|e] eqn:E;
      [|discriminate].
    intros [= <-]. eexists. split; [reflexivity|exact E].
  - destruct (readFile path) as [b|e]; cbn [bind]; [|discriminate].
    unfold sourceImages_buffer. destruct (sharpMetadata b) as [m|e] eqn:E;
      [|discriminate].
    intros [= <-]. eexists. split; [reflexivity|exact E].
Qed.

Lemma sourceImages_elements (src : list Src) (parts : list (list SourceImage)) :
  existsb Array_isArray src = false ->
  map sourceImages src = map Normal parts ->
  List.length (List.concat parts) = List.length src
  /\ forall img, In img (List.concat parts) ->
       sharpMetadata (data img) = Normal (metadata img).
Proof.
  revert parts; induction src as [|x src IH]; intros [|part parts]; simpl;
    try discriminate.
  - intros _ _. split; [reflexivity|]. intros img [].
  - intros Hflat [= Hx Hrest]. apply orb_false_elim in Hflat as [Hx' Hflat].
    destruct (sourceImages_element x Hx' Hx) as (img & -> & Himg).
    destruct (IH parts Hflat Hrest) as [Hlen Hall]. simpl. split.
    + now rewrite Hlen.
    + intros img' [<-|H]; auto.
Qed.

(** X8: every source image that [sourceImages] returns carries the metadata
    that the engine reports for its data. *)
Theorem sourceImages_metadata (src : Src) (images : list SourceImage) :
  sourceImages src = Normal images ->
  forall img, In img images -> sharpMetadata (data img) = Normal (metadata img).
Proof.
  destruct src as [b|path|l|].
  - intros H. destruct (sourceImages_element (SrcBuffer b) eq_refl H) as (i & -> & Hi).
    intros img [<-|[]]. exact Hi.
  - intros H. destruct (sourceImages_element (SrcString path) eq_refl H) as (i & -> & Hi).
    intros img [<-|[]]. exact Hi.
  - destruct (sourceImages_array_cases l) as [[_ ->]|[[_ ->]|[Hflat Hne]]];
      try discriminate.
    rewrite (sourceImages_flat_Normal images Hflat Hne).
    intros (parts & Hparts & ->).
    apply (sourceImages_elements l parts Hflat Hparts).
  - discriminate.
Qed.

(** X9: a successful load is never empty: it holds one image for a buffer or
    a path and one image per element for a list, so that [bestSource] on the
    result always selects one of the images loaded. *)
Theorem sourceImages_count (src : Src) (images : list SourceImage) :
  sourceImages src = Normal images ->
  List.length images = match src with
                       | SrcArray l => List.length l
                       | _ => 1%nat
                       end
  /\ images <> []
  /\ forall width height,
       exists r, bestSource images width height = Normal r /\ In r images.
Proof.
  intros H.
  assert (Hlen : List.length images = match src with
                                      | SrcArray l => List.length l
                                      | _ => 1%nat
                                      end
                 /\ images <> []).
  { destruct src as [b|path|l|].
    - destruct (sourceImages_element (SrcBuffer b) eq_refl H) as (i & -> & _).
      split; [reflexivity|discriminate].
    - destruct (sourceImages_element (SrcString path) eq_refl H) as (i & -> & _).
      split; [reflexivity|discriminate].
    - destruct (sourceImages_array_cases l) as [[_ E]|[[_ E]|[Hflat Hne]]];
        try congruence.
      apply (sourceImages_flat_Normal images Hflat Hne) in H as (parts & Hparts & ->).
      destruct (sourceImages_elements l parts Hflat Hparts) as [Hl _].
      split; [exact Hl|].
      intros E. rewrite E in Hl. destruct l; [congruence|discriminate].
    - discriminate. }
  destruct Hlen as [Hlen Hne]. split; [exact Hlen|]. split; [exact Hne|].
  intros width height. destruct images as [|s ss]; [congruence|].
  destruct (bestSource_split s ss width height) as (pre & r & post & Hr & Heq & _).
  exists r. split; [exact Hr|]. rewrite Heq. apply in_or_app. right. now left.
Qed.

(** X10: a list of one element that is not itself a list loads as the
    element does, errors included, under both schedulings. *)
Theorem sourceImages_singleton (x : Src) :
  Array_isArray x = false ->
  sourceImages (SrcArray [x]) = sourceImages x.
Proof.
  intros Hx.
  rewrite sourceImages_flat; [|simpl; now rewrite Hx|discriminate].
  rewrite mapAsync_singleton.
  destruct (sourceImages x) as [part|e]; cbn [bind]; [|reflexivity].
  simpl. now rewrite app_nil_r.
Qed.

(** X11: [sourceImages] fails with one of its three own errors or with the
    error of reading one of the paths it was given; an error of the engine is
    never passed on. *)
Theorem sourceImages_errors (src : Src) (e : Error) :
  sourceImages src = Throw e ->
  e = JsError "Invalid image buffer"
  \/ e = JsError "No source provided"
  \/ e = JsError "Invalid source type provided"
  \/ exists path,
       (src = SrcString path \/ exists l, src = SrcArray l /\ In (SrcString path) l)
       /\ readFile path = Throw e.
Proof.
  assert (Helement : forall x, Array_isArray x = false -> sourceImages x = Throw e ->
            e = JsError "Invalid image buffer"
            \/ e = JsError "Invalid source type provided"
            \/ exists path, x = SrcString path /\ readFile path = Throw e).
  { intros [b|path|l|]; try discriminate; intros _; simpl.
    - unfold sourceImages_buffer. destruct (sharpMetadata b); [discriminate|].
      intros [= <-]. now left.
    - destruct (readFile path) as [b|e'] eqn:E; cbn [bind].
      + unfold sourceImages_buffer. destruct (sharpMetadata b); [discriminate|].
        intros [= <-]. now left.
      + intros [= <-]. right. right. now exists path.
    - intros [= <-]. right. now left. }
  destruct src as [b|path|l|].
  - intros H. destruct (Helement (SrcBuffer b) eq_refl H) as [->|[->|(p & Hp & _)]]; auto.
    discriminate.
  - intros H.
    destruct (Helement (SrcString path) eq_refl H) as [->|[->|(p & [= <-] & Hp)]]; auto.
    right. right. right. exists path. split; [now left|exact Hp].
  - destruct (sourceImages_array_cases l) as [[_ ->]|[[_ ->]|[Hflat Hne]]].
    + intros [= <-]. auto.
    + intros [= <-]. auto.
    + rewrite (sourceImages_flat Hflat Hne).
      destruct (mapAsync l (fun input _ => sourceImages input)) as [parts|e'] eqn:E;
        cbn [bind]; [discriminate|].
      intros [= <-].
      destruct (mapAsync_Throw _ _ E) as (i & x & Hx & Hc).
      apply nth_error_In in Hx.
      assert (Hxflat : Array_isArray x = false).
      { destruct (Array_isArray x) eqn:Ex; [|reflexivity].
        assert (existsb Array_isArray l = true)
          by (apply existsb_exists; now exists x).
        congruence. }
      destruct (Helement x Hxflat Hc) as [->|[->|(p & -> & Hp)]]; auto.
      right. right. right. exists p. split; [|exact Hp].
      right. now exists l.
  - intros [= <-]. auto.
Qed.

End SourceLoaderMore.

(** X12: what [sourceImages] loads does not depend on the scheduling: on the
    same host under any platform name and any order of settlement the same
    sources load to the same images. *)
Theorem sourceImages_scheduling (h : Host) (platformName : string) (order : list nat)
    (src : Src) (images : list SourceImage) :
  sourceImages (host := withScheduling h platformName order) src = Normal images
  <-> sourceImages (host := h) src = Normal images.
Proof.
  assert (Helement : forall x, Array_isArray x = false ->
            sourceImages (host := withScheduling h platformName order) x
            = sourceImages (host := h) x).
  { intros [b|path|l|]; try discriminate; reflexivity. }
  destruct src as [b|path|l|]; try reflexivity.
  destruct (sourceImages_array_cases (host := h) l) as [[Hn E]|[[Hn E]|[Hflat Hne]]].
  - rewrite E. now rewrite (sourceImages_nested (host := withScheduling h platformName order) l Hn).
  - subst l. reflexivity.
  - rewrite (sourceImages_flat_Normal (host := h) images Hflat Hne).
    rewrite (sourceImages_flat_Normal (host := withScheduling h platformName order)
               images Hflat Hne).
    assert (Hmap : map (sourceImages (host := withScheduling h platformName order)) l
                   = map (sourceImages (host := h)) l).
    { clear -Hflat Helement. induction l as [|x l IH]; [reflexivity|].
      simpl in Hflat. apply orb_false_elim in Hflat as [Hx Hflat].
      simpl. now rewrite (Helement x Hx), (IH Hflat). }
    now rewrite Hmap.
Qed.

(** ** More on the plane renderer *)

Section PlaneRendererMore.
Context {host : Host}.

Lemma toBuffer_Throw (image : Sharp) (e : Error) :
  toBuffer image = Throw e -> sharpRun image = Throw e.
Proof.
  unfold toBuffer. destruct (sharpRun image); cbn [bind]; [discriminate|].
  now intros [= ->].
Qed.

Lemma resize_Throw (source : SourceImage) (width height : Z) (pixelArt : bool) (e : Error) :
  resize source width height pixelArt = Throw e -> exists image, sharpRun image = Throw e.
Proof.
  unfold resize. destruct (Metadata.format (metadata source) =? "svg")%string;
    intros H; apply toBuffer_Throw in H; eauto.
Qed.

Lemma createPlaneFavicon_Throw (sourceset : list SourceImage)
    (options : IconPlaneOptions.t) (name0 : string) (raw : bool) (e : Error) :
  createPlaneFavicon sourceset options name0 raw = Throw e ->
  (sourceset = [] /\ e = TypeError "Reduce of empty array with no initial value")
  \/ exists image, sharpRun image = Throw e.
Proof.
  unfold createPlaneFavicon. set (offset := orElse _ 0).
  destruct sourceset as [|s ss].
  - intros [= <-]. now left.
  - destruct (bestSource_split s ss
                (IconPlaneOptions.width options - offset * 2)
                (IconPlaneOptions.height options - offset * 2))
      as (_ & source & _ & -> & _).
    cbn [bind]. right.
    destruct (resize source _ _ _) as [image|e'] eqn:E; cbn [bind] in H.
    + destruct raw; unfold toBuffer, toBufferWithObject in H;
        match type of H with
        | context [sharpRun ?p] => destruct (sharpRun p) as [i|e'] eqn:E'
        end; cbn [bind] in H; try discriminate; injection H as <-; eauto.
    + injection H as <-. eapply resize_Throw. exact E.
Qed.

(** X13: for a vector source [resize] hands the engine the data with the
    density that [svgDensity] gives for the metadata and the target size, and
    asks for one resize with fit contain on a transparent background: no alpha
    channel is ensured, no kernel is chosen, and the pixelArt flag has no
    effect. *)
Theorem resize_vector (source : SourceImage) (width height : Z) (pixelArt : bool) :
  (Metadata.format (metadata source) =? "svg")%string = true ->
  resize source width height pixelArt
  = toBuffer (mkSharp (FromBuffer (data source)
                         (Some (svgDensity (metadata source) width height)))
                      [Resize width height "contain" "#00000000" None])
  /\ resize source width height pixelArt = resize source width height (negb pixelArt).
Proof.
  intros Hsvg. unfold resize. rewrite Hsvg. split; reflexivity.
Qed.

(** X14: [createPlaneFavicon] fails only with the TypeError of the empty
    reduce, when the source list is empty, or with an error of the engine,
    which it passes on unchanged. *)
Theorem createPlaneFavicon_errors (sourceset : list SourceImage)
    (options : IconPlaneOptions.t) (name0 : string) (raw : bool) (e : Error) :
  createPlaneFavicon sourceset options name0 raw = Throw e ->
  (sourceset = [] /\ e = TypeError "Reduce of empty array with no initial value")
  \/ exists image, sharpRun image = Throw e.
Proof. apply createPlaneFavicon_Throw. Qed.

(** X15: the output of [createPlaneFavicon] bears the name it was given; the
    pipeline run on the blank image composites one overlay, turns the result
    by 90 degrees after that exactly when rotate is set, and ends in a
    conversion to sRGB and raw 8-bit pixels, returned with the output info of
    the engine, when raw output is asked for, and in a PNG encoding
    otherwise. *)
Theorem createPlaneFavicon_output (sourceset : list SourceImage)
    (options : IconPlaneOptions.t) (name0 : string) (raw : bool) (img : FaviconImage) :
  createPlaneFavicon sourceset options name0 raw = Normal img ->
  name img = name0
  /\ exists image offset,
       let canvas := createBlankImage (IconPlaneOptions.width options)
                                      (IconPlaneOptions.height options)
                                      (IconPlaneOptions.background options) in
       let composed :=
         ops canvas ++ Composite [overlay image offset offset]
         :: (if IconPlaneOptions.rotate options then [Rotate 90] else []) in
       if raw then
         exists outputInfo,
           sharpRun (mkSharp (input canvas) (composed ++ [ToColorspace "srgb"; Raw "uchar"]))
           = Normal outputInfo
           /\ contents img
              = CRaw (mkRawImage
                        (Encoded (input canvas)
                                 (composed ++ [ToColorspace "srgb"; Raw "uchar"]))
                        outputInfo)
       else
         contents img = CBuffer (Encoded (input canvas) (composed ++ [Png])).
Proof.
  unfold createPlaneFavicon. set (offset := orElse _ 0).
  destruct (bestSource sourceset _ _) as [source|e]; cbn [bind]; [|discriminate].
  destruct (resize source _ _ _) as [image|e]; cbn [bind]; [|discriminate].
  intros H.
  assert (Hchain : forall (p : Sharp) (l : list SharpOp) (op : SharpOp),
            ops p = l -> ops (chain p op) = l ++ [op])
    by (intros p l op <-; reflexivity).
  destruct raw, (IconPlaneOptions.rotate options);
    unfold toBuffer, toBufferWithObject in H;
    match type of H with
    | context [sharpRun ?p] => destruct (sharpRun p) as [i|e] eqn:E
    end; cbn [bind] in H; try discriminate; injection H as <-;
    (split; [reflexivity|]); exists image, offset; cbv zeta;
    unfold chain in *; cbn [input ops contents] in *;
    rewrite <- ?app_assoc in *; cbn [app] in *.
  - exists i. split; [exact E|reflexivity].
  - exists i. split; [exact E|reflexivity].
  - reflexivity.
  - reflexivity.
Qed.


(** X17: without an offset (absent or 0 percent) the source is selected for
    the full size of the plane, resized to it, and composited at the origin. *)
Theorem createPlaneFavicon_no_offset (sourceset : list SourceImage)
    (options : IconPlaneOptions.t) (name0 : string) (raw : bool) (img : FaviconImage) :
  createPlaneFavicon sourceset options name0 raw = Normal img ->
  IconPlaneOptions.offset options = None \/ IconPlaneOptions.offset options = Some 0 ->
  exists source image rest,
    bestSource sourceset (IconPlaneOptions.width options)
               (IconPlaneOptions.height options) = Normal source
    /\ resize source (IconPlaneOptions.width options) (IconPlaneOptions.height options)
              (IconPlaneOptions.pixelArt options) = Normal image
    /\ contentsBuffer (contents img)
       = Encoded (input (createBlankImage (IconPlaneOptions.width options)
                                          (IconPlaneOptions.height options)
                                          (IconPlaneOptions.background options)))
                 (ops (createBlankImage (IconPlaneOptions.width options)
                                        (IconPlaneOptions.height options)
                                        (IconPlaneOptions.background options))
                  ++ Composite [overlay image 0 0] :: rest).
Proof.
  intros H Hnone.
  destruct (createPlaneFavicon_Normal _ _ _ _ H)
    as (offset & source & image & Hoff & Hsource & Himage & _ & _ & Hbuf).
  assert (offset = 0) as ->.
  { destruct Hnone as [E|E]; rewrite E in Hoff; [exact Hoff|].
    unfold nearestInteger in Hoff. lia. }
  replace (IconPlaneOptions.width options - 2 * 0)
    with (IconPlaneOptions.width options) in * by lia.
  replace (IconPlaneOptions.height options - 2 * 0)
    with (IconPlaneOptions.height options) in * by lia.
  exists source, image. eexists. split; [exact Hsource|]. split; [exact Himage|].
  exact Hbuf.
Qed.

(** X18: every plane that [flattenIconOptions] makes of options whose
    background is not a string (absent, true or false) is rendered on the
    transparent 4-channel canvas of its size. *)
Theorem flattenIconOptions_transparent_canvas (iconOptions : IconOptions.t)
    (props : IconPlaneOptions.t) (sourceset : list SourceImage) (name0 : string)
    (raw : bool) (img : FaviconImage) :
  In props (flattenIconOptions iconOptions) ->
  asString (IconOptions.background iconOptions) = None ->
  createPlaneFavicon sourceset props name0 raw = Normal img ->
  canvasOf (contentsBuffer (contents img))
  = Some (mkSharp (Create (IconPlaneOptions.width props) (IconPlaneOptions.height props)
                          4 (Some "#00000000"))
                  [EnsureAlpha]).
Proof.
  intros Hin Hbg H.
  destruct (createPlaneFavicon_Normal _ _ _ _ H)
    as (offset & source & image & _ & _ & _ & _ & _ & Hbuf).
  rewrite Hbuf. cbv zeta.
  unfold flattenIconOptions in Hin. apply in_map_iff in Hin as (size & <- & _).
  cbn [IconPlaneOptions.background IconPlaneOptions.width IconPlaneOptions.height].
  rewrite Hbg. reflexivity.
Qed.

End PlaneRendererMore.

(** ** More on the icon assembler *)

Section IconAssemblerMore.
Context {host : Host}.

Lemma createFavicon_paths (sourceset : list SourceImage) (name0 : string)
    (iconOptions : IconOptions.t) :
  createFavicon sourceset name0 iconOptions
  = containerOf sourceset name0 (flattenIconOptions iconOptions)
  \/ exists props,
       flattenIconOptions iconOptions = [props]
       /\ createFavicon sourceset name0 iconOptions
          = createPlaneFavicon sourceset props name0 false.
Proof.
  unfold createFavicon. cbv zeta.
  destruct ((extname name0 =? ".ico")%string
            || negb (List.length (flattenIconOptions iconOptions) =? 1)%nat) eqn:E;
    [now left|right].
  apply orb_false_elim in E as [_ E]. apply negb_false_iff, Nat.eqb_eq in E.
  destruct (flattenIconOptions iconOptions) as [|props [|? ?]]; try discriminate.
  now exists props.
Qed.

(** X19: an artifact of [createFavicon] bears the name asked for, whatever
    names the planes were rendered under, and its contents are encoded bytes,
    never a raw plane. *)
Theorem createFavicon_artifact (sourceset : list SourceImage) (name0 : string)
    (iconOptions : IconOptions.t) (artifact : FaviconImage) :
  createFavicon sourceset name0 iconOptions = Normal artifact ->
  name artifact = name0 /\ exists b, contents artifact = CBuffer b.
Proof.
  destruct (createFavicon_paths sourceset name0 iconOptions) as [->|(props & _ & ->)].
  - unfold containerOf. destruct (mapAsync _ _); cbn [bind]; [|discriminate].
    intros [= <-]. split; [reflexivity|]. eexists; reflexivity.
  - intros H. destruct (createPlaneFavicon_Normal _ _ _ _ H)
      as (? & ? & ? & _ & _ & _ & Hname & Hbuf & _).
    split; assumption.
Qed.

(** X20: with an empty source list [createFavicon] throws the TypeError of
    the empty reduce as soon as there is one size to render, under both
    schedulings; with no size at all it does not look at the sources and
    yields the encoding of no plane. *)
Theorem createFavicon_empty_sourceset (name0 : string) (iconOptions : IconOptions.t) :
  (IconOptions.sizes iconOptions <> [] ->
   createFavicon [] name0 iconOptions
   = Throw (TypeError "Reduce of empty array with no initial value"))
  /\ (IconOptions.sizes iconOptions = [] ->
      forall sourceset,
        createFavicon sourceset name0 iconOptions
        = Normal (mkFaviconImage name0 (CBuffer (toIco [])))).
Proof.
  split.
  - intros Hsizes.
    destruct (createFavicon_paths [] name0 iconOptions) as [->|(props & _ & ->)];
      [|reflexivity].
    unfold containerOf.
    rewrite (@mapAsync_uniform_error _ _ _
               (fun props (_ : nat) => createPlaneFavicon [] props (rawdataName props) true)
               (flattenIconOptions iconOptions)
               (TypeError "Reduce of empty array with no initial value"));
      [reflexivity| |].
    + unfold flattenIconOptions.
      destruct (IconOptions.sizes iconOptions) as [|size sizes]; [congruence|].
      exists 0%nat. eexists. split; reflexivity.
    + intros i x e _ H. cbv in H. congruence.
  - intros Hsizes sourceset. unfold createFavicon, flattenIconOptions.
    rewrite Hsizes. cbn [map List.length Nat.eqb negb]. rewrite orb_true_r.
    assert (Hm : mapAsync (@nil IconPlaneOptions.t)
                   (fun props (_ : nat) =>
                      createPlaneFavicon sourceset props (rawdataName props) true)
                 = Normal []) by (apply mapAsync_spec; reflexivity).
    rewrite Hm. reflexivity.
Qed.


End IconAssemblerMore.

Lemma containerOf_scheduling (h : Host) (platformName : string) (order : list nat)
    (sourceset : list SourceImage) (name0 : string) (properties : list IconPlaneOptions.t)
    (artifact : FaviconImage) :
  containerOf (host := withScheduling h platformName order) sourceset name0 properties
  = Normal artifact
  <-> containerOf (host := h) sourceset name0 properties = Normal artifact.
Proof.
  set (h' := withScheduling h platformName order).
  set (render := fun props (_ : nat) =>
                   createPlaneFavicon (host := h) sourceset props (rawdataName props) true).
  assert (Hh : forall planes,
            mapAsync (host := h) properties render = Normal planes
            <-> mapAsync (host := h') properties render = Normal planes).
  { intros planes.
    rewrite (mapAsync_spec (host := h)), (mapAsync_spec (host := h')). reflexivity. }
  unfold containerOf. change (@toIco h') with (@toIco h).
  change (fun props (_ : nat) =>
            createPlaneFavicon (host := h') sourceset props (rawdataName props) true)
    with render.
  change (fun props (_ : nat) =>
            createPlaneFavicon (host := h) sourceset props (rawdataName props) true)
    with render.
  destruct (mapAsync (host := h) properties render) as [planes|e] eqn:M;
    destruct (mapAsync (host := h') properties render) as [planes'|e'] eqn:M';
    cbn [bind].
  - pose proof (proj1 (Hh planes) eq_refl) as Hp. now injection Hp as ->.
  - discriminate (proj1 (Hh planes) eq_refl).
  - discriminate (proj2 (Hh planes') eq_refl).
  - split; discriminate.
Qed.

(** X22: the artifact that [createFavicon] yields does not depend on the
    scheduling: on the same host under any platform name and any order of
    settlement it is the same artifact. *)
Theorem createFavicon_scheduling (h : Host) (platformName : string) (order : list nat)
    (sourceset : list SourceImage) (name0 : string) (iconOptions : IconOptions.t)
    (artifact : FaviconImage) :
  createFavicon (host := withScheduling h platformName order) sourceset name0 iconOptions
  = Normal artifact
  <-> createFavicon (host := h) sourceset name0 iconOptions = Normal artifact.
Proof.
  pose proof (containerOf_scheduling h platformName order sourceset name0
                (flattenIconOptions iconOptions) artifact) as Hcontainer.
  unfold containerOf in Hcontainer. unfold createFavicon. cbv zeta.
  change (@extname (withScheduling h platformName order)) with (@extname h).
  destruct ((extname name0 =? ".ico")%string
            || negb (List.length (flattenIconOptions iconOptions) =? 1)%nat).
  - exact Hcontainer.
  - reflexivity.
Qed.

(** ** Dictionaries *)

Section Dictionaries.
Variable T : Type.

Lemma setProperty_fresh (key : string) (value : T) (dict : Dictionary T) :
  ~ In key (map fst dict) -> setProperty key value dict = dict ++ [(key, value)].
Proof.
  induction dict as [|[k v] rest IH]; simpl; intros Hfresh; [reflexivity|].
  destruct (String.eqb_spec k key) as [->|Hne]; [tauto|].
  f_equal. apply IH. tauto.
Qed.

Lemma Object_fromEntries_from (entries : list (string * T)) (dict : Dictionary T) :
  NoDup (map fst (dict ++ entries)) ->
  fold_left (fun d entry => setProperty (fst entry) (snd entry) d) entries dict
  = dict ++ entries.
Proof.
  revert dict; induction entries as [|[k v] rest IH]; intros dict Hnodup; simpl.
  - now rewrite app_nil_r.
  - rewrite setProperty_fresh.
    + rewrite IH; rewrite <- app_assoc; [reflexivity|exact Hnodup].
    + rewrite map_app in Hnodup. simpl in Hnodup.
      apply NoDup_remove_2 in Hnodup. intros Hin. apply Hnodup.
      apply in_or_app. now left.
Qed.

(** An object built from the entries of an object is that object. *)
Lemma Object_fromEntries_entries (entries : list (string * T)) :
  NoDup (map fst entries) -> Object_fromEntries entries = entries.
Proof. intros H. apply (Object_fromEntries_from entries [] H). Qed.

End Dictionaries.

Lemma mapValues_entries (T U : Type) (dict : Dictionary T) (mapper : T -> string -> U) :
  NoDup (map fst dict) ->
  mapValues dict mapper = map (fun entry => (fst entry, mapper (snd entry) (fst entry))) dict.
Proof.
  intros Hnodup. unfold mapValues, Object_entries.
  assert (Hmap : map (fun entry : string * T =>
                        let '(key, value) := entry in (key, mapper value key)) dict
                 = map (fun entry => (fst entry, mapper (snd entry) (fst entry))) dict)
    by (apply map_ext; now intros [k v]).
  rewrite Hmap. apply Object_fromEntries_entries.
  rewrite map_map. simpl. exact Hnodup.
Qed.

Lemma filterKeys_entries (T : Type) (dict : Dictionary T) (predicate : string -> bool) :
  NoDup (map fst dict) ->
  filterKeys dict predicate = filter (fun pair => predicate (fst pair)) dict.
Proof.
  intros Hnodup. unfold filterKeys, Object_entries.
  apply Object_fromEntries_entries.
  induction dict as [|[k v] rest IH]; simpl; [constructor|].
  inversion Hnodup as [|? ? Hk Hrest]; subst.
  destruct (predicate k); simpl; [|now apply IH].
  constructor; [|now apply IH].
  intros Hin. apply Hk. apply in_map_iff in Hin as ([k' v'] & <- & Hin).
  apply filter_In in Hin as [Hin _]. apply in_map_iff. now exists (k', v').
Qed.

(** X23: [mapValues] keeps the keys of the dictionary, in their order, and
    the value under each key is the mapper applied to the former value and the
    key; a key that was absent stays absent. *)
Theorem mapValues_properties (T U : Type) (dict : Dictionary T) (mapper : T -> string -> U) :
  NoDup (map fst dict) ->
  map fst (mapValues dict mapper) = map fst dict
  /\ forall key,
       getProperty (mapValues dict mapper) key
       = option_map (fun value => mapper value key) (getProperty dict key).
Proof.
  intros Hnodup. rewrite (mapValues_entries dict mapper Hnodup). split.
  - rewrite map_map. reflexivity.
  - intros key. unfold getProperty. clear Hnodup.
    induction dict as [|[k v] rest IH]; simpl; [reflexivity|].
    destruct (String.eqb_spec k key) as [->|Hne]; simpl; [reflexivity|exact IH].
Qed.

(** X24: [filterKeys] keeps exactly the properties whose key satisfies the
    predicate, with their values and in their order. *)
Theorem filterKeys_properties (T : Type) (dict : Dictionary T) (predicate : string -> bool) :
  NoDup (map fst dict) ->
  map fst (filterKeys dict predicate) = filter predicate (map fst dict)
  /\ forall key,
       getProperty (filterKeys dict predicate) key
       = if predicate key then getProperty dict key else None.
Proof.
  intros Hnodup. rewrite (filterKeys_entries dict predicate Hnodup). split.
  - clear Hnodup. induction dict as [|[k v] rest IH]; simpl; [reflexivity|].
    destruct (predicate k); simpl; now rewrite IH.
  - intros key. unfold getProperty. clear Hnodup.
    induction dict as [|[k v] rest IH]; simpl.
    + now destruct (predicate key).
    + destruct (predicate k) eqn:Hk; simpl.
      * destruct (String.eqb_spec k key) as [->|Hne]; simpl; [now rewrite Hk|exact IH].
      * destruct (String.eqb_spec k key) as [->|Hne]; simpl; [now rewrite IH, Hk|exact IH].
Qed.

(** X25: filtering the keys and mapping the values can be done in either
    order. *)
Theorem filterKeys_mapValues (T U : Type) (dict : Dictionary T)
    (mapper : T -> string -> U) (predicate : string -> bool) :
  NoDup (map fst dict) ->
  filterKeys (mapValues dict mapper) predicate
  = mapValues (filterKeys dict predicate) mapper.
Proof.
  intros Hnodup.
  assert (Hfiltered : NoDup (map fst (filter (fun pair : string * T => predicate (fst pair))
                                             dict))).
  { clear -Hnodup. induction dict as [|[k v] rest IH]; simpl; [constructor|].
    inversion Hnodup as [|? ? Hk Hrest]; subst.
    destruct (predicate k); simpl; [|now apply IH].
    constructor; [|now apply IH].
    intros Hin. apply Hk. apply in_map_iff in Hin as ([k' v'] & <- & Hin).
    apply filter_In in Hin as [Hin _]. apply in_map_iff. now exists (k', v'). }
  rewrite (filterKeys_entries dict predicate Hnodup).
  rewrite (mapValues_entries _ mapper Hfiltered).
  rewrite (mapValues_entries dict mapper Hnodup).
  rewrite filterKeys_entries.
  - clear. induction dict as [|[k v] rest IH]; simpl; [reflexivity|].
    destruct (predicate k); simpl; now rewrite IH.
  - rewrite map_map. simpl. exact Hnodup.
Qed.

(** ** relativeTo *)

Lemma endsWith_app (s suffix : string) : endsWith (s ++ suffix) suffix = true.
Proof.
  induction s as [|c s IH]; simpl.
  - destruct suffix; simpl; [reflexivity|].
    now rewrite Ascii.eqb_refl, String.eqb_refl.
  - rewrite IH. apply orb_true_r.
Qed.

(** X26: [relativeTo] returns the path as it is when the base is undefined,
    null or empty, and a base gives what the same base followed by a slash
    gives: the slash is added before the URL is resolved. *)
Theorem relativeTo_base {url : UrlApi} (path : string) :
  relativeTo None path = Normal path
  /\ relativeTo (Some "") path = Normal path
  /\ forall base, base <> "" -> endsWith base "/" = false ->
       relativeTo (Some base) path = relativeTo (Some (base ++ "/")%string) path.
Proof.
  split; [reflexivity|]. split; [reflexivity|].
  intros base Hne Hslash. unfold relativeTo.
  rewrite Hslash, endsWith_app.
  destruct (String.eqb_spec base "") as [->|_]; [congruence|].
  destruct (String.eqb_spec (base ++ "/") "") as [E|_]; [|reflexivity].
  destruct base; discriminate E.
Qed.

(** ** The Android platform *)

Section AndroidProperties.
Context {host : Host} {url : UrlApi} {config : IconsConfig}.

Lemma createFavicon_Normal_name (sourceset : list SourceImage) (name0 : string)
    (iconOptions : IconOptions.t) (artifact : FaviconImage) :
  createFavicon sourceset name0 iconOptions = Normal artifact -> name artifact = name0.
Proof.
  destruct (createFavicon_paths sourceset name0 iconOptions) as [->|(props & _ & ->)].
  - unfold containerOf. destruct (mapAsync _ _); cbn [bind]; [|discriminate].
    now intros [= <-].
  - intros H. destruct (createPlaneFavicon_Normal _ _ _ _ H)
      as (? & ? & ? & _ & _ & _ & Hname & _). exact Hname.
Qed.

(** The images rendered for the entries of a dictionary bear the names made
    of its keys, in the order of the entries. *)
Lemma createFavicon_entries_names (sourceset : list SourceImage) (rename : string -> string)
    (entries : list (string * IconOptions.t)) (images : list FaviconImage) :
  mapAsync entries
    (fun entry (_ : nat) =>
       let '(iconName, iconOption) := entry in
       createFavicon sourceset (rename iconName) iconOption) = Normal images ->
  map name images = map (fun entry => rename (fst entry)) entries.
Proof.
  intros H. apply mapAsync_spec in H. unfold Array_map in H.
  rewrite (Array_map_from_ignoring_index
             (fun entry : string * IconOptions.t =>
                let '(iconName, iconOption) := entry in
                createFavicon sourceset (rename iconName) iconOption)) in H.
  apply map_Normal_Forall2 in H.
  induction H as [|[iconName iconOption] image entries' images' Himage _ IH];
    [reflexivity|].
  simpl. now rewrite (createFavicon_Normal_name _ _ _ Himage), IH.
Qed.

Lemma Array_map_from_indexed (T U : Type) (computation : T -> nat -> Completion U)
    (inputs : list T) (index : nat) (rs : list U) :
  Array_map_from computation index inputs = map Normal rs ->
  Forall2 (fun indexed r => computation (snd indexed) (fst indexed) = Normal r)
          (combine (seq index (List.length inputs)) inputs) rs.
Proof.
  revert index rs; induction inputs as [|x rest IH]; intros index [|r rs]; simpl;
    try discriminate; [constructor|].
  intros [= Hx Hrest]. constructor; [exact Hx|now apply IH].
Qed.

(** X27: the images of [createImages] come in three runs: one image per entry
    of [this.iconOptions], named by the key of the entry; then, only when
    [manifestMaskable] is truthy and not a boolean, the nine maskable icons
    under their names; then, only when there is at least one shortcut, what
    [shortcutIcons] returns. *)
Theorem createImages_runs (this : AndroidPlatform.t) (sourceset : list SourceImage)
    (result : list (option FaviconImage)) :
  createImages this sourceset = Normal result ->
  exists icons maskableIcons shortcutImages,
    result = map Some icons ++ map Some maskableIcons ++ shortcutImages
    /\ map name icons = map fst (AndroidPlatform.iconOptions this)
    /\ map name maskableIcons
       = (if truthy (AndroidPlatform.manifestMaskable this)
             && negb (isBoolean (AndroidPlatform.manifestMaskable this))
          then map fst ICONS_OPTIONS_MASKABLE
          else [])
    /\ match AndroidPlatform.shortcuts this with
       | Some (_ :: _) => shortcutIcons this = Normal shortcutImages
       | _ => shortcutImages = []
       end.
Proof.
  unfold createImages.
  destruct (mapAsync (Object_entries (AndroidPlatform.iconOptions this)) _)
    as [icons|e] eqn:Hicons; cbn [bind]; [|discriminate].
  apply (createFavicon_entries_names sourceset (fun n => n)) in Hicons.
  destruct (truthy _ && negb (isBoolean _)).
  - destruct (sourceImages _) as [maskableSourceset|e]; cbn [bind]; [|discriminate].
    destruct (mapAsync (Object_entries ICONS_OPTIONS_MASKABLE) _)
      as [maskableIcons|e] eqn:Hmask; cbn [bind]; [|discriminate].
    apply (createFavicon_entries_names maskableSourceset (fun n => n)) in Hmask.
    destruct (AndroidPlatform.shortcuts this) as [[|s rest]|]; cbn [List.length Nat.ltb Nat.leb bind].
    + intros [= <-]. exists icons, maskableIcons, []. now rewrite app_nil_r.
    + destruct (shortcutIcons this) as [shortcutImages|e]; cbn [bind]; [|discriminate].
      intros [= <-]. exists icons, maskableIcons, shortcutImages.
      now rewrite app_assoc.
    + intros [= <-]. exists icons, maskableIcons, []. now rewrite app_nil_r.
  - cbn [bind].
    destruct (AndroidPlatform.shortcuts this) as [[|s rest]|]; cbn [List.length Nat.ltb Nat.leb bind].
    + intros [= <-]. exists icons, [], []. now rewrite app_nil_r.
    + destruct (shortcutIcons this) as [shortcutImages|e]; cbn [bind]; [|discriminate].
      intros [= <-]. exists icons, [], shortcutImages. now split.
    + intros [= <-]. exists icons, [], []. now rewrite app_nil_r.
Qed.

(** X28: [shortcutIcons] returns, shortcut after shortcut, a null for a
    shortcut that lacks a name, a url or an icon, and for every other shortcut
    the six images named shortcut<index + 1>-<size>.png, where the index is
    the position of the shortcut among all the shortcuts. *)
Theorem shortcutIcons_names (this : AndroidPlatform.t) (shortcuts : list ShortcutOptions.t)
    (result : list (option FaviconImage)) :
  AndroidPlatform.shortcuts this = Some shortcuts ->
  shortcutIcons this = Normal result ->
  exists perShortcut,
    result = Array_flat perShortcut
    /\ Forall2
         (fun indexed images =>
            if emptyOrAbsent (ShortcutOptions.name (snd indexed))
               || emptyOrAbsent (ShortcutOptions.url (snd indexed))
               || negb (truthy (ShortcutOptions.icon (snd indexed)))
            then images = None
            else exists files,
                   images = Some files
                   /\ map name files
                      = map (fun entry => shortcutFileName (fst indexed) (fst entry))
                            SHORTCUT_ICONS_OPTIONS)
         (combine (seq 0 (List.length shortcuts)) shortcuts) perShortcut.
Proof.
  intros Hshortcuts. unfold shortcutIcons. rewrite Hshortcuts.
  destruct (mapAsync shortcuts _) as [perShortcut|e] eqn:H; cbn [bind]; [|discriminate].
  intros [= <-]. exists perShortcut. split; [reflexivity|].
  apply mapAsync_spec in H. unfold Array_map in H.
  apply Array_map_from_indexed in H.
  induction H as [|[index shortcut] images l l' Himages _ IH]; constructor; auto.
  cbn [fst snd] in *.
  destruct (emptyOrAbsent _ || emptyOrAbsent _ || negb (truthy _)).
  - now injection Himages as <-.
  - destruct (sourceImages _) as [shortcutSourceset|e]; cbn [bind] in Himages;
      [|discriminate].
    destruct (mapAsync (Object_entries SHORTCUT_ICONS_OPTIONS) _) as [files|e] eqn:Hfiles;
      cbn [bind] in Himages; [|discriminate].
    injection Himages as <-. exists files. split; [reflexivity|].
    exact (createFavicon_entries_names shortcutSourceset (shortcutFileName index)
             _ Hfiles).
Qed.

Lemma Array_map_throwing_indexed (A B : Type) (callback : A -> nat -> Completion B)
    (array : list A) (index : nat) (bs : list B) :
  Array_map_throwing callback index array = Normal bs ->
  Forall2 (fun indexed b => callback (snd indexed) (fst indexed) = Normal b)
          (combine (seq index (List.length array)) array) bs.
Proof.
  revert index bs; induction array as [|x rest IH]; intros index bs; simpl.
  - intros [= <-]. constructor.
  - destruct (callback x index) as [b|e] eqn:Hx; cbn [bind]; [|discriminate].
    destruct (Array_map_throwing callback (S index) rest) as [bs'|e] eqn:Hrest;
      cbn [bind]; [|discriminate].
    intros [= <-]. constructor; [exact Hx|now apply IH].
Qed.

(** X29: [manifestShortcuts] lists, in their order, the shortcuts that have a
    name and a url, and no other: each with its name and url, its short name
    or else its name, and, when it has an icon, six icons of type image/png
    whose sources are the paths, relative to the base path, of the files that
    [shortcutIcons] names for the position of the shortcut among all the
    shortcuts, skipped ones included. *)
Theorem manifestShortcuts_entries (this : AndroidPlatform.t) (basePath : option string)
    (shortcuts : list ShortcutOptions.t) (result : list ManifestShortcut.t) :
  AndroidPlatform.shortcuts this = Some shortcuts ->
  manifestShortcuts this basePath = Normal result ->
  Forall2
    (fun indexed entry =>
       ShortcutOptions.name (snd indexed) = Some (ManifestShortcut.name entry)
       /\ ShortcutOptions.url (snd indexed) = Some (ManifestShortcut.url entry)
       /\ ManifestShortcut.short_name entry
          = (if emptyOrAbsent (ShortcutOptions.short_name (snd indexed))
             then ManifestShortcut.name entry
             else nullish (ShortcutOptions.short_name (snd indexed)) "")
       /\ ManifestShortcut.description entry = ShortcutOptions.description (snd indexed)
       /\ if truthy (ShortcutOptions.icon (snd indexed))
          then exists icons,
                 ManifestShortcut.icons entry = Some icons
                 /\ Forall2
                      (fun option icon =>
                         relativeTo basePath (shortcutFileName (fst indexed) (fst option))
                         = Normal (ManifestIcon.src icon)
                         /\ ManifestIcon.type icon = "image/png")
                      SHORTCUT_ICONS_OPTIONS icons
          else ManifestShortcut.icons entry = None)
    (filter (fun indexed =>
               negb (emptyOrAbsent (ShortcutOptions.name (snd indexed))
                     || emptyOrAbsent (ShortcutOptions.url (snd indexed))))
            (combine (seq 0 (List.length shortcuts)) shortcuts))
    result.
Proof.
  intros Hshortcuts. unfold manifestShortcuts. rewrite Hshortcuts.
  destruct (Array_map_throwing _ 0 shortcuts) as [mapped|e] eqn:H; cbn [bind];
    [|discriminate].
  intros [= <-]. apply Array_map_throwing_indexed in H.
  induction H as [|[index shortcut] entry l l' Hentry _ IH]; [constructor|].
  cbn [fst snd filter flat_map] in *.
  destruct (ShortcutOptions.name shortcut) as [shortcutName|] eqn:Hname;
    cbn [emptyOrAbsent orb negb] in *; [|injection Hentry as <-; exact IH].
  destruct (String.eqb_spec shortcutName ""); cbn [orb negb] in *;
    [injection Hentry as <-; exact IH|].
  destruct (ShortcutOptions.url shortcut) as [shortcutUrl|] eqn:Hurl;
    cbn [emptyOrAbsent orb negb] in *; [|injection Hentry as <-; exact IH].
  destruct (String.eqb_spec shortcutUrl ""); cbn [orb negb] in *;
    [injection Hentry as <-; exact IH|].
  destruct (truthy (ShortcutOptions.icon shortcut)) eqn:Hicon.
  - destruct (Array_map_throwing _ 0 (Object_entries SHORTCUT_ICONS_OPTIONS))
      as [icons|e] eqn:Hicons; cbn [bind] in Hentry; [|discriminate].
    injection Hentry as <-. cbn [app]. constructor; [|exact IH].
    cbn [fst snd ManifestShortcut.name ManifestShortcut.url ManifestShortcut.short_name
         ManifestShortcut.description ManifestShortcut.icons nullish].
    rewrite Hicon, Hname, Hurl. do 4 (split; [reflexivity|]).
    exists icons. split; [reflexivity|].
    apply Array_map_throwing_indexed in Hicons. unfold Object_entries in Hicons.
    clear -Hicons. revert Hicons. generalize 0%nat at 1.
    generalize SHORTCUT_ICONS_OPTIONS.
    intros options. revert icons.
    induction options as [|[optionName option] options IHo]; intros icons start H;
      inversion H as [|? icon ? icons' Hicon Hrest]; subst; constructor.
    + cbn [fst snd] in *.
      destruct (firstSize option); cbn [bind] in Hicon; [|discriminate].
      destruct (relativeTo basePath _) as [s|e]; cbn [bind] in Hicon; [|discriminate].
      injection Hicon as <-. split; reflexivity.
    + apply (IHo _ (S start)). exact Hrest.
  - cbn [bind] in Hentry. injection Hentry as <-. cbn [app]. constructor; [|exact IH].
    cbn [fst snd ManifestShortcut.name ManifestShortcut.url ManifestShortcut.short_name
         ManifestShortcut.description ManifestShortcut.icons nullish].
    rewrite Hicon, Hname, Hurl. do 4 (split; [reflexivity|]). reflexivity.
Qed.

End AndroidProperties.

(** ** The further properties on the example host *)

(** X8 at work: a buffer and a path in one list. *)
Lemma sourceImages_metadata_witness :
  sourceImages (host := linux) (SrcArray [SrcBuffer (data png64); SrcString "icon.png"])
  = Normal [png64; png16]
  /\ forall img, In img [png64; png16] ->
       sharpMetadata (Host := linux) (data img) = Normal (metadata img).
Proof.
  split; [reflexivity|].
  apply (sourceImages_metadata (host := linux)
           (SrcArray [SrcBuffer (data png64); SrcString "icon.png"])).
  reflexivity.
Defined.

(** X9 at work. *)
Lemma sourceImages_count_witness :
  sourceImages (host := win32) (SrcArray [SrcBuffer (data png64); SrcString "icon.png"])
  = Normal [png64; png16]
  /\ List.length [png64; png16] = 2%nat
  /\ [png64; png16] <> []
  /\ forall width height,
       exists r, bestSource [png64; png16] width height = Normal r
                 /\ In r [png64; png16].
Proof.
  split; [reflexivity|].
  apply (sourceImages_count (host := win32)
           (SrcArray [SrcBuffer (data png64); SrcString "icon.png"])).
  reflexivity.
Defined.

(** X10 at work: a path alone and in a list. *)
Lemma sourceImages_singleton_witness :
  Array_isArray (SrcString "icon.png") = false
  /\ sourceImages (host := linux) (SrcArray [SrcString "icon.png"])
     = sourceImages (host := linux) (SrcString "icon.png").
Proof.
  split; [reflexivity|].
  apply (sourceImages_singleton (host := linux) (SrcString "icon.png")). reflexivity.
Defined.

(** X11 at work: a path that cannot be read. *)
Lemma sourceImages_errors_witness :
  sourceImages (host := linux) (SrcArray [SrcBuffer (data png64); SrcString "gone.png"])
  = Throw (JsError "ENOENT: no such file or directory")
  /\ (JsError "ENOENT: no such file or directory" = JsError "Invalid image buffer"
      \/ JsError "ENOENT: no such file or directory" = JsError "No source provided"
      \/ JsError "ENOENT: no such file or directory" = JsError "Invalid source type provided"
      \/ exists path,
           (SrcArray [SrcBuffer (data png64); SrcString "gone.png"] = SrcString path
            \/ exists l, SrcArray [SrcBuffer (data png64); SrcString "gone.png"] = SrcArray l
                         /\ In (SrcString path) l)
           /\ readFile (Host := linux) path = Throw (JsError "ENOENT: no such file or directory")).
Proof.
  split; [reflexivity|].
  apply (sourceImages_errors (host := linux)
           (SrcArray [SrcBuffer (data png64); SrcString "gone.png"])).
  reflexivity.
Defined.

(** X13 at work: a vector source. *)
Lemma resize_vector_witness :
  (Metadata.format (metadata svg8) =? "svg")%string = true
  /\ resize (host := linux) svg8 32 32 true
     = toBuffer (host := linux)
         (mkSharp (FromBuffer (data svg8) (Some (svgDensity (metadata svg8) 32 32)))
                  [Resize 32 32 "contain" "#00000000" None])
  /\ resize (host := linux) svg8 32 32 true = resize (host := linux) svg8 32 32 (negb true).
Proof.
  split; [reflexivity|].
  apply (resize_vector (host := linux) svg8 32 32 true). reflexivity.
Defined.

(** X14 at work: no source. *)
Lemma createPlaneFavicon_errors_witness :
  createPlaneFavicon (host := linux) [] padded "icon.png" false
  = Throw (TypeError "Reduce of empty array with no initial value")
  /\ ((@nil SourceImage = []
       /\ TypeError "Reduce of empty array with no initial value"
          = TypeError "Reduce of empty array with no initial value")
      \/ exists image,
           sharpRun (Host := linux) image
           = Throw (TypeError "Reduce of empty array with no initial value")).
Proof.
  split; [reflexivity|].
  apply (createPlaneFavicon_errors (host := linux) [] padded "icon.png" false).
  reflexivity.
Defined.

(** X15 at work: a rotated plane, rendered raw. *)
Lemma createPlaneFavicon_output_witness :
  exists img,
    createPlaneFavicon (host := linux) [png16] landscape "plane" true = Normal img
    /\ name img = "plane"
    /\ exists image offset,
         exists outputInfo,
           sharpRun (Host := linux)
             (mkSharp (input (createBlankImage 32 16 None))
                      ((ops (createBlankImage 32 16 None)
                        ++ Composite [overlay image offset offset] :: [Rotate 90])
                       ++ [ToColorspace "srgb"; Raw "uchar"]))
           = Normal outputInfo
           /\ contents img
              = CRaw (mkRawImage
                        (Encoded (input (createBlankImage 32 16 None))
                                 ((ops (createBlankImage 32 16 None)
                                   ++ Composite [overlay image offset offset] :: [Rotate 90])
                                  ++ [ToColorspace "srgb"; Raw "uchar"]))
                        outputInfo).
Proof.
  eexists. split; [reflexivity|].
  apply (createPlaneFavicon_output (host := linux) [png16] landscape "plane" true).
  reflexivity.
Defined.


(** X17 at work: a plane without offset. *)
Lemma createPlaneFavicon_no_offset_witness :
  exists img,
    createPlaneFavicon (host := linux) [png16; png64] landscape "icon.png" false = Normal img
    /\ (IconPlaneOptions.offset landscape = None
        \/ IconPlaneOptions.offset landscape = Some 0)
    /\ exists source image rest,
         bestSource [png16; png64] 32 16 = Normal source
         /\ resize (host := linux) source 32 16 false = Normal image
         /\ contentsBuffer (contents img)
            = Encoded (input (createBlankImage 32 16 None))
                      (ops (createBlankImage 32 16 None)
                       ++ Composite [overlay image 0 0] :: rest).
Proof.
  eexists. split; [reflexivity|]. split; [now right|].
  eapply (createPlaneFavicon_no_offset (host := linux) [png16; png64] landscape
            "icon.png" false); [reflexivity|now right].
Defined.

(** X18 at work: options with the background [false]. *)
Lemma flattenIconOptions_transparent_canvas_witness :
  exists img,
    In (IconPlaneOptions.mk 32 32 (Some 0) false None true false)
       (flattenIconOptions (@transparentIcon exampleIcons 32))
    /\ asString (IconOptions.background (@transparentIcon exampleIcons 32)) = None
    /\ createPlaneFavicon (host := linux) [png64]
         (IconPlaneOptions.mk 32 32 (Some 0) false None true false) "icon.png" false
       = Normal img
    /\ canvasOf (contentsBuffer (contents img))
       = Some (mkSharp (Create 32 32 4 (Some "#00000000")) [EnsureAlpha]).
Proof.
  eexists. split; [now left|]. split; [reflexivity|]. split; [reflexivity|].
  eapply (flattenIconOptions_transparent_canvas (host := linux)
            (@transparentIcon exampleIcons 32)
            (IconPlaneOptions.mk 32 32 (Some 0) false None true false)
            [png64] "icon.png" false); [now left|reflexivity|reflexivity].
Defined.

(** X19 at work: two sizes under a name that ends in .png. *)
Lemma createFavicon_artifact_witness :
  exists artifact,
    createFavicon (host := linux) [png16] "favicon.png" twoSizes = Normal artifact
    /\ name artifact = "favicon.png"
    /\ exists b, contents artifact = CBuffer b.
Proof.
  eexists. split; [reflexivity|].
  apply (createFavicon_artifact (host := linux) [png16] "favicon.png" twoSizes).
  reflexivity.
Defined.


(** X23 at work. *)
Lemma mapValues_properties_witness :
  NoDup (map fst exampleDictionary)
  /\ map fst (mapValues exampleDictionary (fun value _ => value * 2))
     = map fst exampleDictionary
  /\ forall key,
       getProperty (mapValues exampleDictionary (fun value _ => value * 2)) key
       = option_map (fun value => value * 2) (getProperty exampleDictionary key).
Proof.
  assert (H : NoDup (map fst exampleDictionary)).
  { repeat constructor; simpl; intros H;
      repeat (destruct H as [H|H]; [discriminate H|]); exact H. }
  split; [exact H|].
  exact (mapValues_properties exampleDictionary (fun value _ => value * 2) H).
Defined.

(** X24 at work. *)
Lemma filterKeys_properties_witness :
  NoDup (map fst exampleDictionary)
  /\ map fst (filterKeys exampleDictionary (fun key => negb (key =? "medium")%string))
     = filter (fun key => negb (key =? "medium")%string) (map fst exampleDictionary)
  /\ forall key,
       getProperty (filterKeys exampleDictionary
                      (fun key => negb (key =? "medium")%string)) key
       = if negb (key =? "medium")%string then getProperty exampleDictionary key else None.
Proof.
  assert (H : NoDup (map fst exampleDictionary)).
  { repeat constructor; simpl; intros H;
      repeat (destruct H as [H|H]; [discriminate H|]); exact H. }
  split; [exact H|].
  exact (filterKeys_properties exampleDictionary
           (fun key => negb (key =? "medium")%string) H).
Defined.

(** X25 at work. *)
Lemma filterKeys_mapValues_witness :
  NoDup (map fst exampleDictionary)
  /\ filterKeys (mapValues exampleDictionary (fun value _ => value * 2))
                (fun key => negb (key =? "medium")%string)
     = mapValues (filterKeys exampleDictionary (fun key => negb (key =? "medium")%string))
                 (fun value _ => value * 2).
Proof.
  assert (H : NoDup (map fst exampleDictionary)).
  { repeat constructor; simpl; intros H;
      repeat (destruct H as [H|H]; [discriminate H|]); exact H. }
  split; [exact H|].
  exact (filterKeys_mapValues exampleDictionary (fun value _ => value * 2)
           (fun key => negb (key =? "medium")%string) H).
Defined.

(** X27 at work: two icons, a boolean [manifestMaskable], three shortcuts. *)
Lemma createImages_runs_witness :
  exists result,
    createImages (host := linux) (config := exampleIcons) examplePlatform [png16]
    = Normal result
    /\ exists icons maskableIcons shortcutImages,
         result = map Some icons ++ map Some maskableIcons ++ shortcutImages
         /\ map name icons = ["android-chrome-36x36.png"; "android-chrome-48x48.png"]
         /\ map name maskableIcons = []
         /\ shortcutIcons (host := linux) (config := exampleIcons) examplePlatform
            = Normal shortcutImages.
Proof.
  eexists. split; [reflexivity|].
  apply (createImages_runs (host := linux) (config := exampleIcons) examplePlatform [png16]).
  reflexivity.
Defined.

(** X28 at work: the first and the third shortcut leave a null. *)
Lemma shortcutIcons_names_witness :
  exists result,
    AndroidPlatform.shortcuts examplePlatform
    = Some [namelessShortcut; homeShortcut; plainShortcut]
    /\ shortcutIcons (host := linux) (config := exampleIcons) examplePlatform = Normal result
    /\ exists perShortcut,
         result = Array_flat perShortcut
         /\ Forall2
              (fun indexed images =>
                 if emptyOrAbsent (ShortcutOptions.name (snd indexed))
                    || emptyOrAbsent (ShortcutOptions.url (snd indexed))
                    || negb (truthy (ShortcutOptions.icon (snd indexed)))
                 then images = None
                 else exists files,
                        images = Some files
                        /\ map name files
                           = map (fun entry => shortcutFileName (fst indexed) (fst entry))
                                 (SHORTCUT_ICONS_OPTIONS (config := exampleIcons)))
              (combine (seq 0 3) [namelessShortcut; homeShortcut; plainShortcut])
              perShortcut.
Proof.
  eexists. split; [reflexivity|]. split; [reflexivity|].
  apply (shortcutIcons_names (host := linux) (config := exampleIcons) examplePlatform
           (shortcuts := [namelessShortcut; homeShortcut; plainShortcut]));
    reflexivity.
Defined.

(** X29 at work: the shortcut without a name is left out, and the second
    shortcut keeps the number 2. *)
Lemma manifestShortcuts_entries_witness :
  exists result,
    AndroidPlatform.shortcuts examplePlatform
    = Some [namelessShortcut; homeShortcut; plainShortcut]
    /\ manifestShortcuts (url := exampleUrl) (config := exampleIcons) examplePlatform
         (Some "/assets") = Normal result
    /\ Forall2
         (fun indexed entry =>
            ShortcutOptions.name (snd indexed) = Some (ManifestShortcut.name entry)
            /\ ShortcutOptions.url (snd indexed) = Some (ManifestShortcut.url entry)
            /\ ManifestShortcut.short_name entry
               = (if emptyOrAbsent (ShortcutOptions.short_name (snd indexed))
                  then ManifestShortcut.name entry
                  else nullish (ShortcutOptions.short_name (snd indexed)) "")
            /\ ManifestShortcut.description entry
               = ShortcutOptions.description (snd indexed)
            /\ if truthy (ShortcutOptions.icon (snd indexed))
               then exists icons,
                      ManifestShortcut.icons entry = Some icons
                      /\ Forall2
                           (fun option icon =>
                              relativeTo (url := exampleUrl) (Some "/assets")
                                (shortcutFileName (fst indexed) (fst option))
                              = Normal (ManifestIcon.src icon)
                              /\ ManifestIcon.type icon = "image/png")
                           (SHORTCUT_ICONS_OPTIONS (config := exampleIcons)) icons
               else ManifestShortcut.icons entry = None)
         [(1%nat, homeShortcut); (2%nat, plainShortcut)]
         result.
Proof.
  eexists. split; [reflexivity|]. split; [reflexivity|].
  apply (manifestShortcuts_entries (url := exampleUrl) (config := exampleIcons)
           examplePlatform (Some "/assets")
           (shortcuts := [namelessShortcut; homeShortcut; plainShortcut]));
    reflexivity.
Defined.
